(** * Morpheus: phase classifier, performance monitor, prefetchers and the
    adaptive runtime, embedded from the C++ sources.

    Doubles are Rocq's primitive binary64 floats, whose operations and
    comparisons are the IEEE 754 ones the C++ code runs (a comparison with a
    NaN operand is false).  [uint64_t] and [size_t] values are integers in
    [0, 2^64) with the wrap-around written out.  Addresses ([const void*])
    are 64-bit integers; the null pointer is address 0. *)

From Stdlib Require Import ZArith Lia List Bool Floats Uint63.
From stdpp Require Import gmap list.
Import ListNotations.

Set Warnings "-inexact-float".

Local Open Scope Z_scope.

(** ** Machine arithmetic *)

Definition U64_MOD : Z := 2 ^ 64.

(** Unsigned 64-bit wrap-around ([uint64_t], [size_t], pointer arithmetic). *)
Definition wrap64 (z : Z) : Z := z mod U64_MOD.

(** Reinterpretation of a 64-bit pattern as [int64_t] / [ptrdiff_t]. *)
Definition to_int64 (z : Z) : Z :=
  let u := wrap64 z in if u <? 2 ^ 63 then u else u - U64_MOD.

(** [static_cast<double>(x)] for a [uint64_t] x: the nearest binary64 value.
    [of_uint63] converts a 63-bit integer with correct rounding.  A value with
    the top bit set is halved with its lowest bit kept sticky, converted, and
    doubled, which gives the same correctly rounded result (the instruction
    sequence emitted for this cast on x86-64). *)
Definition u64_to_double (z : Z) : float :=
  if z <? 2 ^ 63 then PrimFloat.of_uint63 (Uint63.of_Z z)
  else (PrimFloat.of_uint63 (Uint63.of_Z (Z.lor (Z.shiftr z 1) (Z.land z 1))) * 2)%float.

(** ** trained_classifier.h *)

Inductive ExecutionPhase : Set :=
  | DenseSequential
  | SparseRandom
  | PointerChasing
  | Unknown.

Module TrainedPhaseClassifier.

(** [TrainedPhaseClassifier::classify].  [features[i]] is read only after
    the size guard, so the default of [nth] is never used. *)
Definition classify (features : list float) : ExecutionPhase :=
  if (length features <? 7)%nat then Unknown
  else
    let l3_miss_rate := nth 0 features 0%float in
    let ipc := nth 1 features 0%float in
    let branch_miss_rate := nth 2 features 0%float in
    if (l3_miss_rate <=? 0.008)%float then
      if (ipc <=? 1.218)%float then
        if (branch_miss_rate <=? 0.043)%float then SparseRandom
        else
          if (l3_miss_rate <=? 0.004)%float then DenseSequential
          else PointerChasing
      else
        if (l3_miss_rate <=? 0.003)%float then DenseSequential
        else
          if (branch_miss_rate <=? 0.035)%float then DenseSequential
          else PointerChasing
    else
      if (ipc <=? 1.044)%float then
        if (branch_miss_rate <=? 0.052)%float then SparseRandom
        else PointerChasing
      else
        if (l3_miss_rate <=? 0.015)%float then PointerChasing
        else SparseRandom.

End TrainedPhaseClassifier.

(** ** python/trained_classifier.cpp: the second exported tree *)

Module ExportedPhaseClassifier.

(** [TrainedPhaseClassifier::classify] of python/trained_classifier.cpp. *)
Definition classify (features : list float) : ExecutionPhase :=
  if (length features <? 7)%nat then Unknown
  else
    let f0 := nth 0 features 0%float in
    let f1 := nth 1 features 0%float in
    let f2 := nth 2 features 0%float in
    let f6 := nth 6 features 0%float in
    if (f1 <=? 1.267921)%float then
      if (f2 <=? 0.048740)%float then
        if (f0 <=? 0.008015)%float then
          if (f1 <=? 0.909520)%float then SparseRandom
          else
            if (f2 <=? 0.034531)%float then DenseSequential
            else DenseSequential
        else
          if (f0 <=? 0.019926)%float then
            if (f2 <=? 0.040511)%float then SparseRandom
            else PointerChasing
          else
            if (f0 <=? 0.023621)%float then SparseRandom
            else SparseRandom
      else
        if (f0 <=? 0.032926)%float then
          if (f0 <=? 0.023788)%float then
            if (f2 <=? 0.053023)%float then PointerChasing
            else PointerChasing
          else
            if (f1 <=? 0.747415)%float then SparseRandom
            else PointerChasing
        else SparseRandom
    else
      if (f2 <=? 0.051773)%float then
        if (f2 <=? 0.046426)%float then DenseSequential
        else DenseSequential
      else
        if (f6 <=? 725101.875000)%float then PointerChasing
        else PointerChasing.

End ExportedPhaseClassifier.

(** The decision tree of the specification (section 4.2), as data: a node
    compares one of the three named features with a threshold and continues
    left when [feature <= threshold]. *)
Module SpecTree.

Inductive Feature : Set := L3MissRate | Ipc | BranchMissRate.

Inductive Tree : Set :=
  | Leaf (p : ExecutionPhase)
  | Node (f : Feature) (threshold : float) (le gt : Tree).

Definition feature_value (l3_miss_rate ipc branch_miss_rate : float) (f : Feature) : float :=
  match f with
  | L3MissRate => l3_miss_rate
  | Ipc => ipc
  | BranchMissRate => branch_miss_rate
  end.

Fixpoint eval (t : Tree) (l3_miss_rate ipc branch_miss_rate : float) : ExecutionPhase :=
  match t with
  | Leaf p => p
  | Node f thr le gt =>
      if (feature_value l3_miss_rate ipc branch_miss_rate f <=? thr)%float
      then eval le l3_miss_rate ipc branch_miss_rate
      else eval gt l3_miss_rate ipc branch_miss_rate
  end.

Definition tree : Tree :=
  Node L3MissRate 0.008
    (Node Ipc 1.218
       (Node BranchMissRate 0.043
          (Leaf SparseRandom)
          (Node L3MissRate 0.004 (Leaf DenseSequential) (Leaf PointerChasing)))
       (Node L3MissRate 0.003
          (Leaf DenseSequential)
          (Node BranchMissRate 0.035 (Leaf DenseSequential) (Leaf PointerChasing))))
    (Node Ipc 1.044
       (Node BranchMissRate 0.052 (Leaf SparseRandom) (Leaf PointerChasing))
       (Node L3MissRate 0.015 (Leaf PointerChasing) (Leaf SparseRandom))).

(** What section 4.2 asks of [classify]. *)
Definition classify_spec (features : list float) : ExecutionPhase :=
  if (length features <? 7)%nat then Unknown
  else eval tree (nth 0 features 0%float) (nth 1 features 0%float) (nth 2 features 0%float).

End SpecTree.

Definition golden_dense : list float :=
  [0.002; 1.9; 0.015; 800; 300; 950000; 500000]%float.
Definition golden_sparse : list float :=
  [0.025; 0.8; 0.028; 4500; 2500; 1100000; 1400000]%float.
Definition golden_pointer : list float :=
  [0.012; 0.95; 0.075; 1800; 900; 1000000; 1050000]%float.

(** ** performance_monitor.h / performance_monitor.cpp *)

Module PerformanceMonitor.

(** [struct PerformanceSample]: raw 64-bit counters and the classified phase. *)
Record PerformanceSample : Set := mkSample {
  timestamp_ns : Z;
  instructions : Z;
  cycles : Z;
  l1_misses : Z;
  l2_misses : Z;
  l3_misses : Z;
  branch_misses : Z;
  phase : ExecutionPhase
}.

(** The derived metrics: [den ? static_cast<double>(num) / den : 0.0]. *)
Definition guarded_rate (num den : Z) : float :=
  if den =? 0 then 0%float else (u64_to_double num / u64_to_double den)%float.

Definition ipc (s : PerformanceSample) : float :=
  guarded_rate (instructions s) (cycles s).
Definition l1_miss_rate (s : PerformanceSample) : float :=
  guarded_rate (l1_misses s) (instructions s).
Definition l2_miss_rate (s : PerformanceSample) : float :=
  guarded_rate (l2_misses s) (instructions s).
Definition l3_miss_rate (s : PerformanceSample) : float :=
  guarded_rate (l3_misses s) (instructions s).
Definition branch_miss_rate (s : PerformanceSample) : float :=
  guarded_rate (branch_misses s) (instructions s).

(** Constants of [linux/perf_event.h] used by [initialize]. *)
Definition PERF_TYPE_HARDWARE : Z := 0.
Definition PERF_TYPE_HW_CACHE : Z := 3.
Definition PERF_COUNT_HW_CPU_CYCLES : Z := 0.
Definition PERF_COUNT_HW_INSTRUCTIONS : Z := 1.
Definition PERF_COUNT_HW_CACHE_MISSES : Z := 3.
Definition PERF_COUNT_HW_BRANCH_MISSES : Z := 5.
Definition PERF_COUNT_HW_CACHE_L1D : Z := 0.
Definition PERF_COUNT_HW_CACHE_LL : Z := 2.
Definition PERF_COUNT_HW_CACHE_OP_READ : Z := 0.
Definition PERF_COUNT_HW_CACHE_RESULT_MISS : Z := 1.

Inductive IoctlRequest : Set :=
  | PERF_EVENT_IOC_RESET
  | PERF_EVENT_IOC_ENABLE
  | PERF_EVENT_IOC_DISABLE.

(** The operating system as the monitor sees it: each call's result. *)
Record OS : Type := mkOS {
  (** [openPerfEvent(type, config)]: a file descriptor, or -1. *)
  perf_event_open : Z -> Z -> Z;
  (** [ioctl(fd, request, 0)]: -1 on failure. *)
  ioctl : Z -> IoctlRequest -> Z;
  (** [read(fd, values, sizeof values)]: [Some values[0]] when the whole
      buffer was read. *)
  read_counter : Z -> option Z;
  (** [__builtin_ia32_rdtsc()]. *)
  rdtsc : Z
}.

(** [class PerformanceMonitor]: the private fields. *)
Record Monitor : Set := mkMonitor {
  samples_ : list PerformanceSample;
  perf_fds_ : list Z;
  initialized_ : bool;
  monitoring_ : bool;
  sample_interval_ms_ : Z
}.

(** The constructor. *)
Definition new : Monitor :=
  {| samples_ := []; perf_fds_ := []; initialized_ := false;
     monitoring_ := false; sample_interval_ms_ := 1 |}.

(** The six events of [initialize], as (type, config). *)
Definition events : list (Z * Z) :=
  [ (PERF_TYPE_HARDWARE, PERF_COUNT_HW_INSTRUCTIONS);
    (PERF_TYPE_HARDWARE, PERF_COUNT_HW_CPU_CYCLES);
    (PERF_TYPE_HW_CACHE,
      Z.lor PERF_COUNT_HW_CACHE_L1D
        (Z.lor (Z.shiftl PERF_COUNT_HW_CACHE_OP_READ 8)
               (Z.shiftl PERF_COUNT_HW_CACHE_RESULT_MISS 16)));
    (PERF_TYPE_HW_CACHE,
      Z.lor PERF_COUNT_HW_CACHE_LL
        (Z.lor (Z.shiftl PERF_COUNT_HW_CACHE_OP_READ 8)
               (Z.shiftl PERF_COUNT_HW_CACHE_RESULT_MISS 16)));
    (PERF_TYPE_HARDWARE, PERF_COUNT_HW_CACHE_MISSES);
    (PERF_TYPE_HARDWARE, PERF_COUNT_HW_BRANCH_MISSES) ].

(** The loop of [initialize]: a failed event is skipped, an opened one is
    appended to [perf_fds_]. *)
Definition open_events (os : OS) (fds : list Z) : list Z :=
  fold_left
    (fun acc ev =>
       let fd := perf_event_open os (fst ev) (snd ev) in
       if fd =? -1 then acc else acc ++ [fd])
    events fds.

(** [PerformanceMonitor::initialize]: the returned flag and the new state. *)
Definition initialize (os : OS) (sample_interval_ms : Z) (m : Monitor) : bool * Monitor :=
  if initialized_ m then (true, m)
  else
    let fds := open_events os (perf_fds_ m) in
    match fds with
    | [] =>
        (false,
         {| samples_ := samples_ m; perf_fds_ := fds; initialized_ := false;
            monitoring_ := monitoring_ m; sample_interval_ms_ := sample_interval_ms |})
    | _ :: _ =>
        (true,
         {| samples_ := samples_ m; perf_fds_ := fds; initialized_ := true;
            monitoring_ := monitoring_ m; sample_interval_ms_ := sample_interval_ms |})
    end.

(** The loop of [startMonitoring]: stops at the first failing [ioctl]. *)
Fixpoint reset_and_enable (os : OS) (fds : list Z) : bool :=
  match fds with
  | [] => true
  | fd :: rest =>
      if ioctl os fd PERF_EVENT_IOC_RESET =? -1 then false
      else if ioctl os fd PERF_EVENT_IOC_ENABLE =? -1 then false
      else reset_and_enable os rest
  end.

(** [PerformanceMonitor::startMonitoring]. *)
Definition startMonitoring (os : OS) (m : Monitor) : bool * Monitor :=
  if negb (initialized_ m) || monitoring_ m then (false, m)
  else if reset_and_enable os (perf_fds_ m) then
    (true,
     {| samples_ := []; perf_fds_ := perf_fds_ m; initialized_ := initialized_ m;
        monitoring_ := true; sample_interval_ms_ := sample_interval_ms_ m |})
  else (false, m).

(** [PerformanceMonitor::stopMonitoring]; a failing [ioctl] is only logged. *)
Definition stopMonitoring (m : Monitor) : bool * Monitor :=
  if negb (monitoring_ m) then (true, m)
  else
    (true,
     {| samples_ := samples_ m; perf_fds_ := perf_fds_ m; initialized_ := initialized_ m;
        monitoring_ := false; sample_interval_ms_ := sample_interval_ms_ m |}).

(** [clearSamples]. *)
Definition clearSamples (m : Monitor) : Monitor :=
  {| samples_ := []; perf_fds_ := perf_fds_ m; initialized_ := initialized_ m;
     monitoring_ := monitoring_ m; sample_interval_ms_ := sample_interval_ms_ m |}.

(** The seven features [readCounters] hands to the classifier
    (performance_monitor.cpp, lines 167-175). *)
Definition classifier_features (sample : PerformanceSample) : list float :=
  [ l3_miss_rate sample;
    ipc sample;
    branch_miss_rate sample;
    u64_to_double (l1_misses sample);
    u64_to_double (l2_misses sample);
    u64_to_double (instructions sample);
    u64_to_double (cycles sample) ].

(** One guarded [read] of [readCounters]: the field keeps its previous
    content when fewer than six descriptors are open or the read is short. *)
Definition read_field (os : OS) (fds : list Z) (i : nat) (old : Z) : Z :=
  if (length fds <? 6)%nat then old
  else match read_counter os (nth i fds 0) with
       | Some v => v
       | None => old
       end.

(** [PerformanceMonitor::readCounters].  [uninit] is the content of the
    uninitialised local [sample]. *)
Definition readCounters (os : OS) (uninit : PerformanceSample) (m : Monitor) : PerformanceSample :=
  let fds := perf_fds_ m in
  let sample :=
    {| timestamp_ns := rdtsc os;
       instructions := read_field os fds 0 (instructions uninit);
       cycles := read_field os fds 1 (cycles uninit);
       l1_misses := read_field os fds 2 (l1_misses uninit);
       l2_misses := read_field os fds 3 (l2_misses uninit);
       l3_misses := read_field os fds 4 (l3_misses uninit);
       branch_misses := read_field os fds 5 (branch_misses uninit);
       phase := phase uninit |} in
  {| timestamp_ns := timestamp_ns sample;
     instructions := instructions sample;
     cycles := cycles sample;
     l1_misses := l1_misses sample;
     l2_misses := l2_misses sample;
     l3_misses := l3_misses sample;
     branch_misses := branch_misses sample;
     phase := TrainedPhaseClassifier.classify (classifier_features sample) |}.

(** [PerformanceMonitor::getCurrentPhase]. *)
Definition getCurrentPhase (m : Monitor) : ExecutionPhase :=
  match samples_ m with
  | [] => Unknown
  | s :: rest => phase (List.last rest s)
  end.

(** [PerformanceMonitor::extractFeatures]. *)
Definition extractFeatures (m : Monitor) : list float :=
  match samples_ m with
  | [] => []
  | s :: rest =>
      let sample := List.last rest s in
      [ l3_miss_rate sample;
        ipc sample;
        branch_miss_rate sample;
        u64_to_double (l1_misses sample);
        u64_to_double (l2_misses sample) ]
  end.

(** The public operations that change a monitor, for runs of calls. *)
Inductive Op : Set :=
  | OpInitialize (sample_interval_ms : Z)
  | OpStartMonitoring
  | OpStopMonitoring
  | OpClearSamples.

Definition step (os : OS) (op : Op) (m : Monitor) : Monitor :=
  match op with
  | OpInitialize i => snd (initialize os i m)
  | OpStartMonitoring => snd (startMonitoring os m)
  | OpStopMonitoring => snd (stopMonitoring m)
  | OpClearSamples => clearSamples m
  end.

Definition run (os : OS) (ops : list Op) (m : Monitor) : Monitor :=
  fold_left (fun acc op => step os op acc) ops m.

End PerformanceMonitor.

(** The rate the specification describes for the derived metrics: the
    quotient with the denominator floored at 1. *)
Definition floored_rate (num den : Z) : float :=
  (u64_to_double num / u64_to_double (Z.max den 1))%float.

(** Finite and non-negative, as a test on a double: not below zero and
    below infinity (both comparisons are false on a NaN). *)
Definition finite_nonneg (x : float) : bool :=
  (0 <=? x)%float && (x <? infinity)%float.

(** Every counter of the sample is a [uint64_t] value. *)
Definition sample_in_range (s : PerformanceMonitor.PerformanceSample) : Prop :=
  0 <= PerformanceMonitor.instructions s < 2 ^ 64
  /\ 0 <= PerformanceMonitor.cycles s < 2 ^ 64
  /\ 0 <= PerformanceMonitor.l1_misses s < 2 ^ 64
  /\ 0 <= PerformanceMonitor.l2_misses s < 2 ^ 64
  /\ 0 <= PerformanceMonitor.l3_misses s < 2 ^ 64
  /\ 0 <= PerformanceMonitor.branch_misses s < 2 ^ 64.

(** ** strided_prefetcher.h *)

Module StridedPrefetcher.

Definition HISTORY_SIZE : nat := 8.

(** The private fields; [recent_addresses_] is the queue, front first. *)
Record State : Set := mkState {
  prefetch_distance_ : Z;
  cache_line_size_ : Z;
  detected_stride_ : Z;
  recent_addresses_ : list Z
}.

(** The constructor. *)
Definition new : State :=
  {| prefetch_distance_ := 1; cache_line_size_ := 64;
     detected_stride_ := 0; recent_addresses_ := [] |}.

(** [current_addr - prev_addr] on [const char*], as an [int64_t]. *)
Definition ptrdiff (current_addr prev_addr : Z) : Z :=
  to_int64 (current_addr - prev_addr).

(** The loop over [queue_copy]: a stride is pushed only when [prev_addr]
    is not the null pointer, and [prev_addr] then becomes the current
    address. *)
Fixpoint strides_from (prev_addr : Z) (queue_copy : list Z) : list Z :=
  match queue_copy with
  | [] => []
  | current_addr :: rest =>
      (if prev_addr =? 0 then [] else [ptrdiff current_addr prev_addr])
      ++ strides_from current_addr rest
  end.

(** The stride kept after the consistency check over [strides]. *)
Definition checked_stride (strides : list Z) (detected : Z) : Z :=
  match strides with
  | [] => detected
  | first_stride :: rest =>
      let consistent := forallb (fun s => s =? first_stride) rest in
      if consistent && (0 <? first_stride) then first_stride else detected
  end.

(** [StridedPrefetcher::detectStride]. *)
Definition detectStride (addr : Z) (st : State) : State :=
  let queue := recent_addresses_ st ++ [addr] in
  if (length queue <? HISTORY_SIZE)%nat then
    {| prefetch_distance_ := prefetch_distance_ st;
       cache_line_size_ := cache_line_size_ st;
       detected_stride_ := detected_stride_ st;
       recent_addresses_ := queue |}
  else
    let strides := strides_from 0 queue in
    {| prefetch_distance_ := prefetch_distance_ st;
       cache_line_size_ := cache_line_size_ st;
       detected_stride_ := checked_stride strides (detected_stride_ st);
       recent_addresses_ :=
         if (HISTORY_SIZE <? length queue)%nat then tl queue else queue |}.

(** The addresses [base + i * step] for [i] from 1 to [distance]. *)
Definition hints_ahead (base step distance : Z) : list Z :=
  map (fun i => wrap64 (base + wrap64 (Z.of_nat i * step)))
      (seq 1 (Z.to_nat distance)).

(** [StridedPrefetcher::prefetch]: the new state and the addresses handed
    to [_mm_prefetch], in order. *)
Definition prefetch (addr : Z) (st : State) : State * list Z :=
  let st' := detectStride addr st in
  if 0 <? detected_stride_ st' then
    (st', hints_ahead addr (detected_stride_ st') (prefetch_distance_ st'))
  else
    (st', hints_ahead addr (cache_line_size_ st') (prefetch_distance_ st')).

Definition configure (distance stride : Z) (st : State) : State :=
  {| prefetch_distance_ := distance; cache_line_size_ := stride;
     detected_stride_ := detected_stride_ st;
     recent_addresses_ := recent_addresses_ st |}.

Definition reset (st : State) : State :=
  {| prefetch_distance_ := prefetch_distance_ st;
     cache_line_size_ := cache_line_size_ st;
     detected_stride_ := 0; recent_addresses_ := [] |}.

(** Feeding a sequence of addresses to [detectStride], first to last. *)
Definition feed (addrs : list Z) (st : State) : State :=
  fold_left (fun acc a => detectStride a acc) addrs st.

End StridedPrefetcher.

(** ** sequential_prefetcher.h *)

Module SequentialPrefetcher.

Record State : Set := mkState {
  prefetch_distance_ : Z;
  cache_line_size_ : Z
}.

(** The constructor. *)
Definition new : State := {| prefetch_distance_ := 1; cache_line_size_ := 64 |}.

(** [SequentialPrefetcher::prefetch]: the addresses handed to
    [_mm_prefetch], in order; the loop is the one of the strided
    prefetcher's fallback. *)
Definition prefetch (addr : Z) (st : State) : list Z :=
  StridedPrefetcher.hints_ahead addr (cache_line_size_ st) (prefetch_distance_ st).

Definition configure (distance stride : Z) (st : State) : State :=
  {| prefetch_distance_ := distance; cache_line_size_ := stride |}.

(** [reset]: there is no state to reset. *)
Definition reset (st : State) : State := st.

End SequentialPrefetcher.

(** The deltas between consecutive addresses of a window, as the
    specification describes them. *)
Fixpoint window_deltas (window : list Z) : list Z :=
  match window with
  | a :: (b :: _) as rest => StridedPrefetcher.ptrdiff b a :: window_deltas rest
  | _ => []
  end.

(** All deltas equal to one positive value. *)
Definition all_equal_positive (deltas : list Z) : bool :=
  match deltas with
  | [] => false
  | d :: rest => forallb (fun s => s =? d) rest && (0 <? d)
  end.

(** ** ima_prefetcher.h *)

Module IMAPrefetcher.

Definition MAX_CHAIN_LENGTH : nat := 4.

Record State : Type := mkState {
  prefetch_distance_ : Z;
  cache_line_size_ : Z;
  pointer_chains_ : gmap Z (list Z)
}.

(** The constructor. *)
Definition new : State :=
  {| prefetch_distance_ := 1; cache_line_size_ := 64; pointer_chains_ := ∅ |}.

(** [IMAPrefetcher::prefetch]: the addresses handed to [_mm_prefetch], in
    order.  The loop runs while [i < chain.size() && i < prefetch_distance_]. *)
Definition prefetch (addr : Z) (st : State) : list Z :=
  match pointer_chains_ st !! addr with
  | Some chain => firstn (Z.to_nat (prefetch_distance_ st)) chain
  | None => [wrap64 (addr + cache_line_size_ st)]
  end.

Definition configure (distance stride : Z) (st : State) : State :=
  {| prefetch_distance_ := distance; cache_line_size_ := stride;
     pointer_chains_ := pointer_chains_ st |}.

Definition reset (st : State) : State :=
  {| prefetch_distance_ := prefetch_distance_ st;
     cache_line_size_ := cache_line_size_ st;
     pointer_chains_ := ∅ |}.

(** The update of one chain: append, after dropping the oldest entry of a
    full chain. *)
Definition push_bounded (chain : list Z) (target_addr : Z) : list Z :=
  if (length chain <? MAX_CHAIN_LENGTH)%nat then chain ++ [target_addr]
  else tl chain ++ [target_addr].

(** [IMAPrefetcher::learnPointerChain]; [pointer_chains_[base_addr]] starts
    an empty chain for a key that has none. *)
Definition learnPointerChain (base_addr target_addr : Z) (st : State) : State :=
  let chain := default [] (pointer_chains_ st !! base_addr) in
  {| prefetch_distance_ := prefetch_distance_ st;
     cache_line_size_ := cache_line_size_ st;
     pointer_chains_ :=
       <[base_addr := push_bounded chain target_addr]> (pointer_chains_ st) |}.

(** The public operations that change the prefetcher, for runs of calls. *)
Inductive Op : Set :=
  | OpLearn (base_addr target_addr : Z)
  | OpConfigure (distance stride : Z)
  | OpReset.

Definition step (op : Op) (st : State) : State :=
  match op with
  | OpLearn b t => learnPointerChain b t st
  | OpConfigure d s => configure d s st
  | OpReset => reset st
  end.

Definition run (ops : list Op) (st : State) : State :=
  fold_left (fun acc op => step op acc) ops st.

End IMAPrefetcher.

(** ** adaptive_runtime.h *)

Module AdaptiveRuntime.

Record Config : Set := mkConfig {
  sampling_interval_ms : Z;
  adaptation_interval_ms : Z;
  history_size : Z;
  enable_logging : bool
}.

(** [Config()]: the default member initialisers. *)
Definition default_config : Config :=
  {| sampling_interval_ms := 1; adaptation_interval_ms := 10;
     history_size := 1000; enable_logging := true |}.

Record PhaseMetrics : Set := mkMetrics {
  timestamp_ms : Z;
  l1_hit_rate : float;
  l2_hit_rate : float;
  l3_hit_rate : float;
  instructions_per_cycle : float;
  branch_accuracy : float;
  prefetch_useful_rate : float
}.

(** [AdaptiveRuntime::ExecutionPhase], the runtime's own enumeration. *)
Inductive ExecutionPhase : Set :=
  | UNKNOWN
  | DENSE_SEQUENTIAL
  | SPARSE_RANDOM
  | POINTER_CHASING.

Definition phase_eqb (a b : ExecutionPhase) : bool :=
  match a, b with
  | UNKNOWN, UNKNOWN
  | DENSE_SEQUENTIAL, DENSE_SEQUENTIAL
  | SPARSE_RANDOM, SPARSE_RANDOM
  | POINTER_CHASING, POINTER_CHASING => true
  | _, _ => false
  end.

(** [struct PerformanceCounters], the sample type of [extractMetrics]. *)
Record PerformanceCounters : Set := mkCounters {
  cycles : Z;
  instructions : Z;
  l1_cache_hits : Z;
  l1_cache_misses : Z;
  l2_cache_hits : Z;
  l2_cache_misses : Z;
  l3_cache_hits : Z;
  l3_cache_misses : Z;
  branches : Z;
  branch_misses : Z;
  prefetch_attempts : Z;
  prefetch_hits : Z
}.

(** What the runtime writes to [stderr]. *)
Inductive LogEvent : Set :=
  | LogPhaseTransition (from to : ExecutionPhase)
  | LogStrategy (phase : ExecutionPhase) (distance degree : Z).

(** [a / b] on [uint64_t]; a zero divisor has no defined result. *)
Definition udiv64 (a b : Z) : option Z :=
  if b =? 0 then None else Some (a / b).

(** A hit rate as [extractMetrics] writes it:
    [hits / (hits + misses + 1)] with all three operands [uint64_t], the
    quotient then stored in a [double]. *)
Definition hit_rate (hits misses : Z) : option float :=
  match udiv64 hits (wrap64 (wrap64 (hits + misses) + 1)) with
  | Some q => Some (u64_to_double q)
  | None => None
  end.

(** [AdaptiveRuntime::extractMetrics]; [None] when an integer division
    divides by zero. *)
Definition extractMetrics (sample : PerformanceCounters) (timestamp : Z) : option PhaseMetrics :=
  match hit_rate (l1_cache_hits sample) (l1_cache_misses sample),
        hit_rate (l2_cache_hits sample) (l2_cache_misses sample),
        hit_rate (l3_cache_hits sample) (l3_cache_misses sample) with
  | Some l1, Some l2, Some l3 =>
      Some
        {| timestamp_ms := timestamp;
           l1_hit_rate := l1;
           l2_hit_rate := l2;
           l3_hit_rate := l3;
           instructions_per_cycle :=
             (u64_to_double (instructions sample)
              / u64_to_double (wrap64 (cycles sample + 1)))%float;
           branch_accuracy :=
             (1 - u64_to_double (branch_misses sample)
                  / u64_to_double (wrap64 (branches sample + 1)))%float;
           prefetch_useful_rate :=
             (u64_to_double (prefetch_hits sample)
              / u64_to_double (wrap64 (prefetch_attempts sample + 1)))%float |}
  | _, _, _ => None
  end.

(** [avg.f += metric.f] over the history, from the zero-initialised [avg]. *)
Definition sum_field (f : PhaseMetrics -> float) (history : list PhaseMetrics) : float :=
  fold_left (fun acc metric => (acc + f metric)%float) history 0%float.

Definition zero_metrics : PhaseMetrics :=
  {| timestamp_ms := 0; l1_hit_rate := 0; l2_hit_rate := 0; l3_hit_rate := 0;
     instructions_per_cycle := 0; branch_accuracy := 0; prefetch_useful_rate := 0 |}.

(** [AdaptiveRuntime::computeAverageMetrics] over [metrics_history_]; it is
    only called on a history of at least ten entries. *)
Definition computeAverageMetrics (history : list PhaseMetrics) : PhaseMetrics :=
  let count := u64_to_double (Z.of_nat (length history)) in
  {| timestamp_ms := timestamp_ms (List.last history zero_metrics);
     l1_hit_rate := (sum_field l1_hit_rate history / count)%float;
     l2_hit_rate := (sum_field l2_hit_rate history / count)%float;
     l3_hit_rate := (sum_field l3_hit_rate history / count)%float;
     instructions_per_cycle := (sum_field instructions_per_cycle history / count)%float;
     branch_accuracy := (sum_field branch_accuracy history / count)%float;
     prefetch_useful_rate := (sum_field prefetch_useful_rate history / count)%float |}.

(** [AdaptiveRuntime::detectExecutionPhase]; [a > b] is [b < a]. *)
Definition detectExecutionPhase (metrics : PhaseMetrics) : ExecutionPhase :=
  if (0.85 <? l1_hit_rate metrics)%float then DENSE_SEQUENTIAL
  else if (0.50 <? l1_hit_rate metrics)%float && (0.6 <? prefetch_useful_rate metrics)%float
  then SPARSE_RANDOM
  else if (prefetch_useful_rate metrics <? 0.4)%float then POINTER_CHASING
  else SPARSE_RANDOM.

(** The history buffer of [adaptationLoop]: [push_back(x)], then
    [pop_front()] when the size exceeds [capacity]. *)
Definition history_append {A : Type} (capacity : Z) (h : list A) (x : A) : list A :=
  let h' := h ++ [x] in
  if capacity <? Z.of_nat (length h') then tl h' else h'.

Section Runtime.

(** The predictive state private to the attached prefetcher (the stride
    detector's window, the learned pointer chains, ...). *)
Context {Predictive : Type}.

(** Modelled from the spec: prefetch/prefetcher_interface.h, which declares
    the [Prefetcher] that [AdaptiveRuntime] drives, is not among the
    sources.  The object holds the prefetch distance and degree of section
    4.4's table, written by [setPrefetchDistance] and [setPrefetchDegree],
    next to its private predictive state, which the two setters leave alone
    and which only [reset()] (section 4.3) clears. *)
Record Prefetcher : Type := mkPrefetcher {
  prefetch_distance : Z;
  prefetch_degree : Z;
  predictive : Predictive
}.

Definition setPrefetchDistance (d : Z) (p : Prefetcher) : Prefetcher :=
  {| prefetch_distance := d; prefetch_degree := prefetch_degree p;
     predictive := predictive p |}.

Definition setPrefetchDegree (d : Z) (p : Prefetcher) : Prefetcher :=
  {| prefetch_distance := prefetch_distance p; prefetch_degree := d;
     predictive := predictive p |}.

(** The private fields of [AdaptiveRuntime] that the adaptation step reads
    or writes.  [prefetcher_] is the object behind the shared pointer,
    [None] for a null pointer. *)
Record Runtime : Type := mkRuntime {
  prefetcher_ : option Prefetcher;
  config_ : Config;
  current_phase_ : ExecutionPhase;
  is_adapting_ : bool;
  metrics_history_ : list PhaseMetrics;
  total_adaptations_ : Z
}.

(** The constructor. *)
Definition new (prefetcher : option Prefetcher) (config : Config) : Runtime :=
  {| prefetcher_ := prefetcher; config_ := config; current_phase_ := UNKNOWN;
     is_adapting_ := false; metrics_history_ := []; total_adaptations_ := 0 |}.

Definition getCurrentPhase (rt : Runtime) : ExecutionPhase := current_phase_ rt.
Definition getTotalAdaptations (rt : Runtime) : Z := total_adaptations_ rt.

(** [AdaptiveRuntime::getRecentMetrics]: the loop copies
    [metrics_history_[i]] for [i] from [start] up to the size. *)
Definition getRecentMetrics (count : Z) (rt : Runtime) : list PhaseMetrics :=
  let size := Z.of_nat (length (metrics_history_ rt)) in
  let start := if count <? size then size - count else 0 in
  map (fun i => nth i (metrics_history_ rt) zero_metrics)
      (seq (Z.to_nat start) (length (metrics_history_ rt) - Z.to_nat start)).

(** [AdaptiveRuntime::getStrategyEffectiveness]. *)
Definition getStrategyEffectiveness (rt : Runtime) : float :=
  if (length (metrics_history_ rt) <? 2)%nat then 0%float
  else
    (fold_left (fun avg_useful_rate metric =>
                  (avg_useful_rate + prefetch_useful_rate metric)%float)
               (metrics_history_ rt) 0%float
     / u64_to_double (Z.of_nat (length (metrics_history_ rt))))%float.

Definition with_prefetcher (p : option Prefetcher) (rt : Runtime) : Runtime :=
  {| prefetcher_ := p; config_ := config_ rt; current_phase_ := current_phase_ rt;
     is_adapting_ := is_adapting_ rt; metrics_history_ := metrics_history_ rt;
     total_adaptations_ := total_adaptations_ rt |}.

Definition with_history (h : list PhaseMetrics) (rt : Runtime) : Runtime :=
  {| prefetcher_ := prefetcher_ rt; config_ := config_ rt;
     current_phase_ := current_phase_ rt; is_adapting_ := is_adapting_ rt;
     metrics_history_ := h; total_adaptations_ := total_adaptations_ rt |}.

(** The [fprintf] of a [case] of [updatePrefetchingStrategy]. *)
Definition log_strategy (rt : Runtime) (phase : ExecutionPhase) (distance degree : Z) : list LogEvent :=
  if enable_logging (config_ rt) then [LogStrategy phase distance degree] else [].

(** [AdaptiveRuntime::updatePrefetchingStrategy]: the new state and the
    lines logged. *)
Definition updatePrefetchingStrategy (phase : ExecutionPhase) (rt : Runtime) : Runtime * list LogEvent :=
  match prefetcher_ rt with
  | None => (rt, [])
  | Some p =>
      match phase with
      | DENSE_SEQUENTIAL =>
          (with_prefetcher (Some (setPrefetchDegree 4 (setPrefetchDistance 256 p))) rt,
           log_strategy rt DENSE_SEQUENTIAL 256 4)
      | SPARSE_RANDOM =>
          (with_prefetcher (Some (setPrefetchDegree 2 (setPrefetchDistance 128 p))) rt,
           log_strategy rt SPARSE_RANDOM 128 2)
      | POINTER_CHASING =>
          (with_prefetcher (Some (setPrefetchDegree 1 (setPrefetchDistance 64 p))) rt,
           log_strategy rt POINTER_CHASING 64 1)
      | UNKNOWN => (rt, [])
      end
  end.

(** [AdaptiveRuntime::hintPhase]. *)
Definition hintPhase (phase : ExecutionPhase) (rt : Runtime) : Runtime * list LogEvent :=
  updatePrefetchingStrategy phase rt.

(** The sampling half of an iteration of [adaptationLoop]: the new entry
    goes into [metrics_history_], bounded by [config_.history_size]. *)
Definition store_in_history (metrics : PhaseMetrics) (rt : Runtime) : Runtime :=
  with_history
    (history_append (history_size (config_ rt)) (metrics_history_ rt) metrics) rt.

(** The adaptation half of an iteration of [adaptationLoop]. *)
Definition adapt (rt : Runtime) : Runtime * list LogEvent :=
  if (10 <=? length (metrics_history_ rt))%nat then
    let avg_metrics := computeAverageMetrics (metrics_history_ rt) in
    let detected_phase := detectExecutionPhase avg_metrics in
    if negb (phase_eqb detected_phase (current_phase_ rt)) then
      let log1 :=
        if enable_logging (config_ rt)
        then [LogPhaseTransition (current_phase_ rt) detected_phase] else [] in
      let '(rt1, log2) := updatePrefetchingStrategy detected_phase rt in
      ({| prefetcher_ := prefetcher_ rt1; config_ := config_ rt1;
          current_phase_ := detected_phase; is_adapting_ := is_adapting_ rt1;
          metrics_history_ := metrics_history_ rt1;
          total_adaptations_ := wrap64 (total_adaptations_ rt1 + 1) |},
       log1 ++ log2)
    else (rt, [])
  else (rt, []).

(** One iteration of the [while] loop of [adaptationLoop], without the
    sleep.  [current_time] is [getCurrentTimeMs()], [sample] what
    [monitor_->readCounters()] returns when the sampling branch runs, and
    [last_adaptation_time] the loop's local variable.  [None] when
    [extractMetrics] divides by zero. *)
Definition loop_iteration (current_time : Z) (sample : PerformanceCounters)
    (st : Runtime * Z) : option ((Runtime * Z) * list LogEvent) :=
  let '(rt, last_adaptation_time) := st in
  if sampling_interval_ms (config_ rt) <=? wrap64 (current_time - last_adaptation_time) then
    match extractMetrics sample current_time with
    | Some metrics =>
        let '(rt', log) := adapt (store_in_history metrics rt) in
        Some ((rt', current_time), log)
    | None => None
    end
  else
    let '(rt', log) := adapt rt in
    Some ((rt', last_adaptation_time), log).

(** An adaptation tick that records one entry: the entry is stored, then
    the adaptation half runs. *)
Definition tick (metrics : PhaseMetrics) (rt : Runtime) : Runtime :=
  fst (adapt (store_in_history metrics rt)).

Definition ticks (ms : list PhaseMetrics) (rt : Runtime) : Runtime :=
  fold_left (fun acc m => tick m acc) ms rt.



End Runtime.

Arguments Prefetcher : clear implicits.
Arguments Runtime : clear implicits.

End AdaptiveRuntime.

(** The real-valued rate of the specification, [hits / (hits + misses + 1)],
    computed in doubles. *)
Definition spec_hit_rate (hits misses : Z) : float :=
  (u64_to_double hits / u64_to_double (hits + misses + 1))%float.

(** ** Notions used to state the theorems *)

(** The entries kept of everything appended so far: the most recent
    [capacity] of them, in insertion order. *)
Definition most_recent {A : Type} (capacity : Z) (all : list A) : list A :=
  skipn (length all - Z.to_nat capacity) all.

(** The fixed policy of section 4.4: prefetch distance and degree per
    detected phase. *)
Definition strategy_table (phase : AdaptiveRuntime.ExecutionPhase) : option (Z * Z) :=
  match phase with
  | AdaptiveRuntime.DENSE_SEQUENTIAL => Some (256, 4)
  | AdaptiveRuntime.SPARSE_RANDOM => Some (128, 2)
  | AdaptiveRuntime.POINTER_CHASING => Some (64, 1)
  | AdaptiveRuntime.UNKNOWN => None
  end.

(** The prefetcher after the table entry of [phase] is applied to it: the
    same object, its predictive state as it was. *)
Definition apply_table {Predictive : Type} (phase : AdaptiveRuntime.ExecutionPhase)
    (p : AdaptiveRuntime.Prefetcher Predictive) : AdaptiveRuntime.Prefetcher Predictive :=
  match strategy_table phase with
  | Some (distance, degree) =>
      {| AdaptiveRuntime.prefetch_distance := distance;
         AdaptiveRuntime.prefetch_degree := degree;
         AdaptiveRuntime.predictive := AdaptiveRuntime.predictive p |}
  | None => p
  end.

(** Every learned chain holds between one and [MAX_CHAIN_LENGTH] entries. *)
Definition chains_bounded (st : IMAPrefetcher.State) : Prop :=
  forall (k : Z) (chain : list Z),
    IMAPrefetcher.pointer_chains_ st !! k = Some chain -> (1 <= length chain <= 4)%nat.





(** A positive finite number with exponent in [lo, hi] and at most [digits]
    mantissa digits. *)
Definition positive_finite (lo hi digits : Z) (x : spec_float) : Prop :=
  exists (m : positive) (e : Z),
    x = S754_finite false m e /\ lo <= e <= hi /\ SpecFloat.Zdigits2 (Zpos m) <= digits.

(** The addresses [base], [base + step], ..., [n] of them. *)
Definition arith_progression (base step : Z) (n : nat) : list Z :=
  map (fun i => base + Z.of_nat i * step) (seq 0 n).

(** The hit counters of a sample do not wrap: [hits + misses + 1] fits in
    64 bits at every cache level. *)
Definition hit_counters_fit (sample : AdaptiveRuntime.PerformanceCounters) : Prop :=
  0 <= AdaptiveRuntime.l1_cache_hits sample /\ 0 <= AdaptiveRuntime.l1_cache_misses sample
  /\ AdaptiveRuntime.l1_cache_hits sample + AdaptiveRuntime.l1_cache_misses sample + 1 < U64_MOD
  /\ 0 <= AdaptiveRuntime.l2_cache_hits sample /\ 0 <= AdaptiveRuntime.l2_cache_misses sample
  /\ AdaptiveRuntime.l2_cache_hits sample + AdaptiveRuntime.l2_cache_misses sample + 1 < U64_MOD
  /\ 0 <= AdaptiveRuntime.l3_cache_hits sample /\ 0 <= AdaptiveRuntime.l3_cache_misses sample
  /\ AdaptiveRuntime.l3_cache_hits sample + AdaptiveRuntime.l3_cache_misses sample + 1 < U64_MOD.

(** The descriptors that [initialize] obtains on a system: the results of
    the six opens, in order, without the failures. *)
Definition opened_events (os : PerformanceMonitor.OS) : list Z :=
  List.filter (fun fd => negb (fd =? -1))
         (map (fun ev => PerformanceMonitor.perf_event_open os (fst ev) (snd ev))
              PerformanceMonitor.events).

(** The six raw counters of a sample. *)
Definition raw_counters (s : PerformanceMonitor.PerformanceSample) : list Z :=
  [ PerformanceMonitor.instructions s; PerformanceMonitor.cycles s;
    PerformanceMonitor.l1_misses s; PerformanceMonitor.l2_misses s;
    PerformanceMonitor.l3_misses s; PerformanceMonitor.branch_misses s ].

(** The six hit and miss counters of a sample are [uint64_t] values. *)
Definition hit_counters_in_range (sample : AdaptiveRuntime.PerformanceCounters) : Prop :=
  0 <= AdaptiveRuntime.l1_cache_hits sample < U64_MOD
  /\ 0 <= AdaptiveRuntime.l1_cache_misses sample < U64_MOD
  /\ 0 <= AdaptiveRuntime.l2_cache_hits sample < U64_MOD
  /\ 0 <= AdaptiveRuntime.l2_cache_misses sample < U64_MOD
  /\ 0 <= AdaptiveRuntime.l3_cache_hits sample < U64_MOD
  /\ 0 <= AdaptiveRuntime.l3_cache_misses sample < U64_MOD.

(** ** Concrete inputs *)

(** A sample of a dense sequential run. *)
Definition dense_sample : PerformanceMonitor.PerformanceSample :=
  {| PerformanceMonitor.timestamp_ns := 1;
     PerformanceMonitor.instructions := 950000;
     PerformanceMonitor.cycles := 500000;
     PerformanceMonitor.l1_misses := 800;
     PerformanceMonitor.l2_misses := 300;
     PerformanceMonitor.l3_misses := 1900;
     PerformanceMonitor.branch_misses := 14250;
     PerformanceMonitor.phase := DenseSequential |}.


(** An entry with a 90 percent L1 hit rate. *)
Definition dense_metrics : AdaptiveRuntime.PhaseMetrics :=
  {| AdaptiveRuntime.timestamp_ms := 0;
     AdaptiveRuntime.l1_hit_rate := 0.9;
     AdaptiveRuntime.l2_hit_rate := 0.5;
     AdaptiveRuntime.l3_hit_rate := 0.5;
     AdaptiveRuntime.instructions_per_cycle := 1.5;
     AdaptiveRuntime.branch_accuracy := 0.99;
     AdaptiveRuntime.prefetch_useful_rate := 0.5 |}.

(** A prefetcher with no predictive state, distance 1 and degree 1. *)
Definition plain_prefetcher : AdaptiveRuntime.Prefetcher unit :=
  {| AdaptiveRuntime.prefetch_distance := 1;
     AdaptiveRuntime.prefetch_degree := 1;
     AdaptiveRuntime.predictive := tt |}.

(** A stride detector that has seen eight addresses 64 bytes apart. *)
Definition trained_strided : StridedPrefetcher.State :=
  StridedPrefetcher.feed [64; 128; 192; 256; 320; 384; 448; 512] StridedPrefetcher.new.

(** A runtime in [UNKNOWN] holding ten dense entries, its prefetcher a
    trained stride detector. *)
Definition runtime_before_switch : AdaptiveRuntime.Runtime StridedPrefetcher.State :=
  AdaptiveRuntime.with_history (repeat dense_metrics 10)
    (AdaptiveRuntime.new
       (Some {| AdaptiveRuntime.prefetch_distance := 1;
                AdaptiveRuntime.prefetch_degree := 1;
                AdaptiveRuntime.predictive := trained_strided |})
       AdaptiveRuntime.default_config).

(** A window that starts at address 0 and then jumps by 1000 before
    settling on steps of 64. *)
Definition window_from_null : list Z :=
  [0; 1000; 1064; 1128; 1192; 1256; 1320; 1384].

(** A prefetcher configured with distance 4 that learned the successors 1,
    2, 3 and 4 of address 100. *)
Definition ima_four_learned : list IMAPrefetcher.Op :=
  [ IMAPrefetcher.OpConfigure 4 64;
    IMAPrefetcher.OpLearn 100 1; IMAPrefetcher.OpLearn 100 2;
    IMAPrefetcher.OpLearn 100 3; IMAPrefetcher.OpLearn 100 4 ].

(** A system on which only the two plain hardware events for instructions
    and cycles open (as descriptors 3 and 4); the cache and branch events
    fail. *)
Definition os_two_counters : PerformanceMonitor.OS :=
  {| PerformanceMonitor.perf_event_open :=
       fun type config =>
         if (type =? 0) && (config =? 1) then 3
         else if (type =? 0) && (config =? 0) then 4
         else -1;
     PerformanceMonitor.ioctl := fun _ _ => 0;
     PerformanceMonitor.read_counter := fun _ => Some 7;
     PerformanceMonitor.rdtsc := 0 |}.





(** A configuration that keeps three entries. *)
Definition config_keep_three : AdaptiveRuntime.Config :=
  {| AdaptiveRuntime.sampling_interval_ms := 1;
     AdaptiveRuntime.adaptation_interval_ms := 10;
     AdaptiveRuntime.history_size := 3;
     AdaptiveRuntime.enable_logging := false |}.

(** An entry told apart by its timestamp only. *)
Definition metrics_at (t : Z) : AdaptiveRuntime.PhaseMetrics :=
  {| AdaptiveRuntime.timestamp_ms := t;
     AdaptiveRuntime.l1_hit_rate := 0;
     AdaptiveRuntime.l2_hit_rate := 0;
     AdaptiveRuntime.l3_hit_rate := 0;
     AdaptiveRuntime.instructions_per_cycle := 0;
     AdaptiveRuntime.branch_accuracy := 0;
     AdaptiveRuntime.prefetch_useful_rate := 0 |}.

(** Counters of an interval with nine L1, L2 and L3 hits and no miss, and
    nine useful prefetches out of nine. *)
Definition counters_all_hits : AdaptiveRuntime.PerformanceCounters :=
  {| AdaptiveRuntime.cycles := 9;
     AdaptiveRuntime.instructions := 9;
     AdaptiveRuntime.l1_cache_hits := 9;
     AdaptiveRuntime.l1_cache_misses := 0;
     AdaptiveRuntime.l2_cache_hits := 9;
     AdaptiveRuntime.l2_cache_misses := 0;
     AdaptiveRuntime.l3_cache_hits := 9;
     AdaptiveRuntime.l3_cache_misses := 0;
     AdaptiveRuntime.branches := 9;
     AdaptiveRuntime.branch_misses := 0;
     AdaptiveRuntime.prefetch_attempts := 9;
     AdaptiveRuntime.prefetch_hits := 9 |}.

(** Counters whose L1 hits alone fill the 64 bits. *)
Definition counters_l1_saturated : AdaptiveRuntime.PerformanceCounters :=
  {| AdaptiveRuntime.cycles := 9;
     AdaptiveRuntime.instructions := 9;
     AdaptiveRuntime.l1_cache_hits := U64_MOD - 1;
     AdaptiveRuntime.l1_cache_misses := 0;
     AdaptiveRuntime.l2_cache_hits := 9;
     AdaptiveRuntime.l2_cache_misses := 0;
     AdaptiveRuntime.l3_cache_hits := 9;
     AdaptiveRuntime.l3_cache_misses := 0;
     AdaptiveRuntime.branches := 9;
     AdaptiveRuntime.branch_misses := 0;
     AdaptiveRuntime.prefetch_attempts := 9;
     AdaptiveRuntime.prefetch_hits := 9 |}.

(** The entry that [extractMetrics] computes from [counters_all_hits] at
    time 5. *)
Definition metrics_of_all_hits : AdaptiveRuntime.PhaseMetrics :=
  match AdaptiveRuntime.extractMetrics counters_all_hits 5 with
  | Some metrics => metrics
  | None => AdaptiveRuntime.zero_metrics
  end.

(** A sample of an interval in which no cycle was counted. *)
Definition sample_without_cycles : PerformanceMonitor.PerformanceSample :=
  {| PerformanceMonitor.timestamp_ns := 0;
     PerformanceMonitor.instructions := 5;
     PerformanceMonitor.cycles := 0;
     PerformanceMonitor.l1_misses := 0;
     PerformanceMonitor.l2_misses := 0;
     PerformanceMonitor.l3_misses := 0;
     PerformanceMonitor.branch_misses := 0;
     PerformanceMonitor.phase := Unknown |}.

(** * Theorems *)

(** ** The trained classifier *)

Section ClassifierFacts.

Import TrainedPhaseClassifier.

Lemma classify_short (features : list float) :
  (length features < 7)%nat -> classify features = Unknown.
Proof.
  intros Hlen. unfold classify.
  destruct (Nat.ltb_spec (length features) 7) as [_ | Hge]; [reflexivity | lia].
Qed.

Lemma classify_spec_tree (features : list float) :
  classify features = SpecTree.classify_spec features.
Proof.
  unfold classify, SpecTree.classify_spec.
  destruct (length features <? 7)%nat; [reflexivity |].
  cbn [SpecTree.eval SpecTree.tree SpecTree.feature_value].
  repeat match goal with
         | |- context [PrimFloat.leb ?a ?b] => destruct (PrimFloat.leb a b)
         end; reflexivity.
Qed.

(** C1: [classify] returns [Unknown] on every vector of fewer than seven
    elements, whatever they are; on every other vector it returns the phase
    that the decision tree of section 4.2 gives for features 0, 1 and 2 (so
    the remaining elements never matter); and the three golden vectors
    classify to DenseSequential, SparseRandom and PointerChasing. *)
Theorem classify_is_fixed_tree :
  (forall features : list float,
      classify features =
      if (length features <? 7)%nat then Unknown
      else SpecTree.eval SpecTree.tree
             (nth 0 features 0%float) (nth 1 features 0%float) (nth 2 features 0%float))
  /\ (forall features : list float,
         (length features < 7)%nat -> classify features = Unknown)
  /\ (forall (l3_miss_rate ipc branch_miss_rate f3 f4 f5 f6 : float) (rest : list float),
         classify (l3_miss_rate :: ipc :: branch_miss_rate :: f3 :: f4 :: f5 :: f6 :: rest)
         = SpecTree.eval SpecTree.tree l3_miss_rate ipc branch_miss_rate)
  /\ classify golden_dense = DenseSequential
  /\ classify golden_sparse = SparseRandom
  /\ classify golden_pointer = PointerChasing.
Proof.
  split; [exact classify_spec_tree |].
  split; [exact classify_short |].
  split; [intros; rewrite classify_spec_tree; reflexivity |].
  repeat split; vm_compute; reflexivity.
Qed.

End ClassifierFacts.

Lemma classify_is_fixed_tree_witness :
  TrainedPhaseClassifier.classify [0.002; 1.9; 0.015; 800; 300; 950000]%float = Unknown.
Proof.
  apply (proj1 (proj2 classify_is_fixed_tree)). simpl. lia.
Defined.

(** ** The performance monitor: feature extraction *)

Section MonitorFeatures.

Import PerformanceMonitor.


Lemma extractFeatures_length (m : Monitor) :
  length (extractFeatures m) = match samples_ m with [] => 0%nat | _ :: _ => 5%nat end.
Proof. unfold extractFeatures. destruct (samples_ m); reflexivity. Qed.

End MonitorFeatures.


(** ** The history buffer *)

Section HistoryBuffer.

Context {A : Type}.

Import AdaptiveRuntime.

Lemma history_append_length (capacity : Z) (h : list A) (x : A) :
  0 <= capacity ->
  Z.of_nat (length h) <= capacity ->
  Z.of_nat (length (history_append capacity h x)) <= capacity.
Proof.
  intros Hcap Hlen. unfold history_append.
  destruct (Z.ltb_spec capacity (Z.of_nat (length (h ++ [x])))) as [Hfull | Hroom].
  - destruct h as [| a h']; simpl in *; [lia |].
    rewrite length_app in *. simpl in *. lia.
  - exact Hroom.
Qed.

(** Appending to a full buffer drops the front entry and nothing else. *)
Lemma history_append_full (capacity : Z) (h : list A) (x : A) :
  Z.of_nat (length h) = capacity ->
  history_append capacity h x = tl (h ++ [x]).
Proof.
  intros Hlen. unfold history_append.
  destruct (Z.ltb_spec capacity (Z.of_nat (length (h ++ [x])))) as [Hfull | Hroom];
    [reflexivity |].
  rewrite length_app in Hroom. simpl in Hroom. lia.
Qed.

Lemma history_append_room (capacity : Z) (h : list A) (x : A) :
  Z.of_nat (length h) < capacity ->
  history_append capacity h x = h ++ [x].
Proof.
  intros Hlen. unfold history_append.
  destruct (Z.ltb_spec capacity (Z.of_nat (length (h ++ [x])))) as [Hfull | Hroom];
    [| reflexivity].
  rewrite length_app in Hfull. simpl in Hfull. lia.
Qed.

Lemma tl_skipn (k : nat) (l : list A) : tl (skipn k l) = skipn (S k) l.
Proof.
  revert l. induction k as [| k IH]; intros [| a l]; simpl.
  - reflexivity.
  - reflexivity.
  - reflexivity.
  - apply (IH l).
Qed.

Lemma most_recent_length (capacity : Z) (all : list A) :
  0 <= capacity ->
  length (most_recent capacity all) = Nat.min (length all) (Z.to_nat capacity).
Proof. intros Hcap. unfold most_recent. rewrite length_skipn. lia. Qed.

Lemma history_append_most_recent (capacity : Z) (all : list A) (x : A) :
  0 <= capacity ->
  history_append capacity (most_recent capacity all) x = most_recent capacity (all ++ [x]).
Proof.
  intros Hcap.
  pose proof (most_recent_length capacity all Hcap) as Hlen.
  destruct (Nat.lt_ge_cases (length all) (Z.to_nat capacity)) as [Hlt | Hge].
  - rewrite history_append_room by lia.
    unfold most_recent. rewrite length_app. simpl.
    replace (length all - Z.to_nat capacity)%nat with 0%nat by lia.
    replace (length all + 1 - Z.to_nat capacity)%nat with 0%nat by lia.
    reflexivity.
  - rewrite history_append_full by lia.
    unfold most_recent. rewrite length_app. simpl.
    replace (length all + 1 - Z.to_nat capacity)%nat
      with (S (length all - Z.to_nat capacity)) by lia.
    rewrite <- tl_skipn. f_equal.
    rewrite skipn_app.
    replace (length all - Z.to_nat capacity - length all)%nat with 0%nat by lia.
    reflexivity.
Qed.

(** Appending a whole sequence to the empty buffer. *)
Lemma history_fold_most_recent (capacity : Z) (xs : list A) :
  0 <= capacity ->
  fold_left (history_append capacity) xs [] = most_recent capacity xs.
Proof.
  intros Hcap.
  change (@nil A) with (most_recent capacity (@nil A)) at 1.
  rewrite <- (app_nil_l xs) at 2.
  generalize (@nil A) as all.
  induction xs as [| x xs IH]; intros all.
  - rewrite app_nil_r. reflexivity.
  - simpl fold_left. rewrite history_append_most_recent by exact Hcap.
    rewrite IH. rewrite <- app_assoc. reflexivity.
Qed.

End HistoryBuffer.

(** ** The adaptive runtime *)

Section RuntimeFacts.

Import AdaptiveRuntime.

Context {Predictive : Type}.

Local Abbreviation Runtime := (AdaptiveRuntime.Runtime Predictive).
Local Abbreviation Prefetcher := (AdaptiveRuntime.Prefetcher Predictive).

Lemma phase_eqb_eq (a b : ExecutionPhase) : phase_eqb a b = true <-> a = b.
Proof. destruct a, b; simpl; split; intros H; try reflexivity; discriminate. Qed.

Lemma phase_eqb_neq (a b : ExecutionPhase) : phase_eqb a b = false <-> a <> b.
Proof.
  rewrite <- phase_eqb_eq. destruct (phase_eqb a b); split; intros H; congruence.
Qed.

Lemma detectExecutionPhase_known (metrics : PhaseMetrics) :
  detectExecutionPhase metrics <> UNKNOWN.
Proof.
  unfold detectExecutionPhase.
  destruct (PrimFloat.ltb 0.85 _); [discriminate |].
  destruct (PrimFloat.ltb 0.50 _ && PrimFloat.ltb 0.6 _); [discriminate |].
  destruct (PrimFloat.ltb _ 0.4); discriminate.
Qed.

Lemma updatePrefetchingStrategy_state (phase : ExecutionPhase) (rt : Runtime) :
  fst (updatePrefetchingStrategy phase rt)
  = with_prefetcher (option_map (apply_table phase) (prefetcher_ rt)) rt.
Proof.
  unfold updatePrefetchingStrategy, with_prefetcher.
  destruct rt as [[p |] cfg cur ad h n]; simpl; [| reflexivity].
  destruct phase; reflexivity.
Qed.

Lemma adapt_cold (rt : Runtime) :
  (length (metrics_history_ rt) < 10)%nat -> adapt rt = (rt, []).
Proof.
  intros Hlen. unfold adapt.
  destruct (Nat.leb_spec 10 (length (metrics_history_ rt))); [lia | reflexivity].
Qed.

Lemma adapt_same_phase (rt : Runtime) :
  detectExecutionPhase (computeAverageMetrics (metrics_history_ rt)) = current_phase_ rt ->
  adapt rt = (rt, []).
Proof.
  intros Hsame. unfold adapt.
  destruct (10 <=? length (metrics_history_ rt))%nat; [| reflexivity].
  rewrite Hsame.
  replace (phase_eqb (current_phase_ rt) (current_phase_ rt)) with true
    by (symmetry; apply phase_eqb_eq; reflexivity).
  reflexivity.
Qed.

Lemma adapt_new_phase (rt : Runtime) :
  (10 <= length (metrics_history_ rt))%nat ->
  detectExecutionPhase (computeAverageMetrics (metrics_history_ rt)) <> current_phase_ rt ->
  fst (adapt rt)
  = {| prefetcher_ :=
         option_map
           (apply_table (detectExecutionPhase (computeAverageMetrics (metrics_history_ rt))))
           (prefetcher_ rt);
       config_ := config_ rt;
       current_phase_ := detectExecutionPhase (computeAverageMetrics (metrics_history_ rt));
       is_adapting_ := is_adapting_ rt;
       metrics_history_ := metrics_history_ rt;
       total_adaptations_ := wrap64 (total_adaptations_ rt + 1) |}.
Proof.
  intros Hlen Hnew. unfold adapt.
  destruct (Nat.leb_spec 10 (length (metrics_history_ rt))); [| lia].
  apply phase_eqb_neq in Hnew. rewrite Hnew. simpl negb. cbv iota.
  pose proof (updatePrefetchingStrategy_state
                (detectExecutionPhase (computeAverageMetrics (metrics_history_ rt))) rt)
    as Hupd.
  destruct (updatePrefetchingStrategy _ rt) as [rt1 log2].
  simpl in Hupd. subst rt1. reflexivity.
Qed.

Lemma adapt_keeps_history (rt : Runtime) :
  metrics_history_ (fst (adapt rt)) = metrics_history_ rt
  /\ config_ (fst (adapt rt)) = config_ rt.
Proof.
  destruct (Nat.lt_ge_cases (length (metrics_history_ rt)) 10) as [Hlt | Hge].
  - rewrite adapt_cold by exact Hlt. split; reflexivity.
  - destruct (phase_eqb (detectExecutionPhase (computeAverageMetrics (metrics_history_ rt)))
                        (current_phase_ rt)) eqn:Heq.
    + apply phase_eqb_eq in Heq. rewrite adapt_same_phase by exact Heq. split; reflexivity.
    + apply phase_eqb_neq in Heq. rewrite adapt_new_phase by assumption. split; reflexivity.
Qed.

Lemma tick_history (metrics : PhaseMetrics) (rt : Runtime) :
  metrics_history_ (tick metrics rt)
  = history_append (history_size (config_ rt)) (metrics_history_ rt) metrics
  /\ config_ (tick metrics rt) = config_ rt.
Proof.
  unfold tick.
  destruct (adapt_keeps_history (store_in_history metrics rt)) as [Hh Hc].
  rewrite Hh, Hc. split; reflexivity.
Qed.

Lemma ticks_snoc (ms : list PhaseMetrics) (m : PhaseMetrics) (rt : Runtime) :
  ticks (ms ++ [m]) rt = tick m (ticks ms rt).
Proof. unfold ticks. rewrite fold_left_app. reflexivity. Qed.

Lemma ticks_history (ms : list PhaseMetrics) (rt : Runtime) :
  metrics_history_ (ticks ms rt)
  = fold_left (history_append (history_size (config_ rt))) ms (metrics_history_ rt)
  /\ config_ (ticks ms rt) = config_ rt.
Proof.
  induction ms as [| m ms IH] using rev_ind.
  - split; reflexivity.
  - destruct IH as [IHh IHc]. rewrite ticks_snoc.
    destruct (tick_history m (ticks ms rt)) as [Hh Hc].
    rewrite Hh, Hc, IHh, IHc. rewrite fold_left_app. split; reflexivity.
Qed.

(** An iteration of the loop whose sampling branch runs is a [tick] on the
    extracted metrics; one whose sampling branch is skipped is the adaptation
    half alone. *)
Lemma loop_iteration_sampling
    (current_time last : Z) (sample : PerformanceCounters) (rt : Runtime) :
  sampling_interval_ms (config_ rt) <= wrap64 (current_time - last) ->
  loop_iteration current_time sample (rt, last)
  = match extractMetrics sample current_time with
    | Some metrics =>
        Some ((tick metrics rt, current_time),
              snd (adapt (store_in_history metrics rt)))
    | None => None
    end.
Proof.
  intros Hdue. unfold loop_iteration, tick.
  destruct (Z.leb_spec (sampling_interval_ms (config_ rt)) (wrap64 (current_time - last)));
    [| lia].
  destruct (extractMetrics sample current_time) as [metrics |]; [| reflexivity].
  destruct (adapt (store_in_history metrics rt)) as [rt' log]. reflexivity.
Qed.

Lemma loop_iteration_idle
    (current_time last : Z) (sample : PerformanceCounters) (rt : Runtime) :
  wrap64 (current_time - last) < sampling_interval_ms (config_ rt) ->
  loop_iteration current_time sample (rt, last)
  = Some ((fst (adapt rt), last), snd (adapt rt)).
Proof.
  intros Hearly. unfold loop_iteration.
  destruct (Z.leb_spec (sampling_interval_ms (config_ rt)) (wrap64 (current_time - last)));
    [lia |].
  destruct (adapt rt) as [rt' log]. reflexivity.
Qed.

(** C6: whatever the configured capacity and the entries appended by the
    loop, the history never grows beyond the capacity; an append to a full
    history drops its front entry and nothing else; and after any number of
    appends the history is the most recent [capacity] entries in insertion
    order, hence exactly [capacity] entries once more than that were
    appended. *)
Theorem history_is_bounded_fifo
    (prefetcher : option Prefetcher) (config : Config) (ms : list PhaseMetrics) :
  0 <= history_size config ->
  let capacity := history_size config in
  let rt := ticks ms (AdaptiveRuntime.new prefetcher config) in
  Z.of_nat (length (metrics_history_ rt)) <= capacity
  /\ metrics_history_ rt = skipn (length ms - Z.to_nat capacity) ms
  /\ (capacity < Z.of_nat (length ms) ->
      Z.of_nat (length (metrics_history_ rt)) = capacity)
  /\ (forall m : PhaseMetrics,
         Z.of_nat (length (metrics_history_ rt)) = capacity ->
         metrics_history_ (tick m rt) = tl (metrics_history_ rt ++ [m]))
  /\ (forall m : PhaseMetrics,
         Z.of_nat (length (metrics_history_ rt)) < capacity ->
         metrics_history_ (tick m rt) = metrics_history_ rt ++ [m]).
Proof.
  intros Hcap capacity rt.
  destruct (ticks_history ms (AdaptiveRuntime.new prefetcher config)) as [Hh Hc].
  fold rt in Hh, Hc. simpl in Hh, Hc. fold capacity in Hh.
  rewrite history_fold_most_recent in Hh by exact Hcap.
  pose proof (most_recent_length capacity ms Hcap) as Hlen.
  rewrite <- Hh in Hlen.
  split; [lia |].
  split; [exact Hh |].
  split; [lia |].
  split; intros m Hm; destruct (tick_history m rt) as [Ht _]; rewrite Ht, Hc;
    fold capacity.
  - apply history_append_full. exact Hm.
  - apply history_append_room. exact Hm.
Qed.

(** C10: [hintPhase(UNKNOWN)] changes nothing and logs nothing, in every
    state of the runtime; and with no prefetcher attached [hintPhase]
    changes nothing and logs nothing, whatever the phase. *)
Theorem hintPhase_frame :
  (forall rt : Runtime, hintPhase UNKNOWN rt = (rt, []))
  /\ (forall (rt : Runtime) (phase : ExecutionPhase),
         prefetcher_ rt = None -> hintPhase phase rt = (rt, [])).
Proof.
  split.
  - intros rt. unfold hintPhase, updatePrefetchingStrategy.
    destruct (prefetcher_ rt); reflexivity.
  - intros rt phase Hnone. unfold hintPhase, updatePrefetchingStrategy.
    rewrite Hnone. reflexivity.
Qed.

(** The state of a runtime started in [UNKNOWN] after ticks whose window
    average classifies as dense sequential from the tenth entry on. *)
Lemma ticks_dense_invariant
    (p : Prefetcher) (config : Config) (ms : list PhaseMetrics) :
  10 <= history_size config ->
  (forall k : nat,
      (10 <= k <= length ms)%nat ->
      detectExecutionPhase
        (computeAverageMetrics (most_recent (history_size config) (firstn k ms)))
      = DENSE_SEQUENTIAL) ->
  let rt := ticks ms (AdaptiveRuntime.new (Some p) config) in
  config_ rt = config
  /\ metrics_history_ rt = most_recent (history_size config) ms
  /\ ((length ms < 10)%nat ->
      current_phase_ rt = UNKNOWN /\ total_adaptations_ rt = 0
      /\ prefetcher_ rt = Some p)
  /\ ((10 <= length ms)%nat ->
      current_phase_ rt = DENSE_SEQUENTIAL /\ total_adaptations_ rt = 1
      /\ prefetcher_ rt = Some (apply_table DENSE_SEQUENTIAL p)).
Proof.
  intros Hcap. induction ms as [| m ms IH] using rev_ind; intros Hdense rt.
  - subst rt. simpl. repeat split; try reflexivity; simpl; lia.
  - assert (Hprefix : forall k : nat, (10 <= k <= length ms)%nat ->
              detectExecutionPhase
                (computeAverageMetrics (most_recent (history_size config) (firstn k ms)))
              = DENSE_SEQUENTIAL).
    { intros k Hk. rewrite <- (Hdense k).
      - rewrite firstn_app. replace (k - length ms)%nat with 0%nat by lia.
        simpl. rewrite app_nil_r. reflexivity.
      - rewrite length_app. simpl. lia. }
    specialize (IH Hprefix). simpl in IH.
    destruct IH as (IHc & IHh & IHcold & IHwarm).
    subst rt. rewrite ticks_snoc.
    set (rt0 := ticks ms (AdaptiveRuntime.new (Some p) config)) in *.
    assert (Hlast : detectExecutionPhase
                      (computeAverageMetrics
                         (most_recent (history_size config) (ms ++ [m])))
                    = DENSE_SEQUENTIAL \/ (length (ms ++ [m]) < 10)%nat).
    { destruct (Nat.lt_ge_cases (length (ms ++ [m])) 10) as [Hlt | Hge]; [right; exact Hlt |].
      left. rewrite <- (Hdense (length (ms ++ [m]))) by lia.
      rewrite firstn_all. reflexivity. }
    destruct (tick_history m rt0) as [Hth Htc].
    rewrite IHc, IHh in Hth.
    rewrite history_append_most_recent in Hth by lia.
    split; [rewrite Htc; exact IHc |].
    split; [exact Hth |].
    assert (Hstore : metrics_history_ (store_in_history m rt0)
                     = most_recent (history_size config) (ms ++ [m])).
    { unfold store_in_history, with_history. simpl. rewrite IHc, IHh.
      apply history_append_most_recent. lia. }
    assert (Hstore_len : length (metrics_history_ (store_in_history m rt0))
                         = Nat.min (length (ms ++ [m])) (Z.to_nat (history_size config))).
    { rewrite Hstore. apply most_recent_length. lia. }
    rewrite length_app in Hstore_len, Hlast |- *.
    change (length [m]) with 1%nat in *.
    unfold tick. split.
    + intros Hlen. rewrite adapt_cold by lia.
      unfold store_in_history, with_history. simpl. apply IHcold. lia.
    + intros Hlen. destruct Hlast as [Hlast | Hshort]; [| lia].
      rewrite <- Hstore in Hlast.
      destruct (Nat.lt_ge_cases (length ms) 10) as [Hwas_cold | Hwas_warm].
      * destruct (IHcold Hwas_cold) as (Hph & Htot & Hpf).
        rewrite adapt_new_phase.
        -- rewrite Hlast. unfold store_in_history, with_history. simpl.
           rewrite Htot, Hpf. repeat split; reflexivity.
        -- lia.
        -- rewrite Hlast. unfold store_in_history, with_history. simpl.
           rewrite Hph. discriminate.
      * destruct (IHwarm Hwas_warm) as (Hph & Htot & Hpf).
        rewrite adapt_same_phase.
        -- unfold store_in_history, with_history. simpl. repeat split; assumption.
        -- rewrite Hlast. unfold store_in_history, with_history. simpl.
           symmetry. exact Hph.
Qed.

(** C3 (as amended): a tick with fewer than ten entries in the history
    changes nothing; with at least ten, when the phase detected from the
    window average is the active one, nothing changes either; when it
    differs, the attached prefetcher object (if any) gets the distance and
    degree of the table of section 4.4 and keeps its predictive state, the
    active phase becomes the detected one, the adaptation counter goes up by
    one (modulo 2^64), and the rest of the state is as before.  A runtime
    started in [UNKNOWN] with a capacity of at least ten, fed ten or more
    entries whose window average classifies as dense sequential from the
    tenth on, ends in [DENSE_SEQUENTIAL] after one adaptation, with
    distance 256 and degree 4. *)
Theorem adaptation_tick_follows_table :
  (forall rt : Runtime,
      (length (metrics_history_ rt) < 10)%nat -> adapt rt = (rt, []))
  /\ (forall rt : Runtime,
         (10 <= length (metrics_history_ rt))%nat ->
         detectExecutionPhase (computeAverageMetrics (metrics_history_ rt))
         = current_phase_ rt ->
         adapt rt = (rt, []))
  /\ (forall rt : Runtime,
         (10 <= length (metrics_history_ rt))%nat ->
         detectExecutionPhase (computeAverageMetrics (metrics_history_ rt))
         <> current_phase_ rt ->
         let detected := detectExecutionPhase (computeAverageMetrics (metrics_history_ rt)) in
         let rt' := fst (adapt rt) in
         (exists distance degree : Z,
             strategy_table detected = Some (distance, degree)
             /\ prefetcher_ rt'
                = option_map
                    (fun p => {| prefetch_distance := distance;
                                 prefetch_degree := degree;
                                 predictive := predictive p |})
                    (prefetcher_ rt))
         /\ current_phase_ rt' = detected
         /\ total_adaptations_ rt' = wrap64 (total_adaptations_ rt + 1)
         /\ (0 <= total_adaptations_ rt < U64_MOD - 1 ->
             total_adaptations_ rt' = total_adaptations_ rt + 1)
         /\ metrics_history_ rt' = metrics_history_ rt
         /\ config_ rt' = config_ rt
         /\ is_adapting_ rt' = is_adapting_ rt)
  /\ (forall (p : Prefetcher) (config : Config) (ms : list PhaseMetrics),
         10 <= history_size config ->
         (10 <= length ms)%nat ->
         (forall k : nat,
             (10 <= k <= length ms)%nat ->
             detectExecutionPhase
               (computeAverageMetrics
                  (skipn (length (firstn k ms) - Z.to_nat (history_size config))
                         (firstn k ms)))
             = DENSE_SEQUENTIAL) ->
         let rt := ticks ms (AdaptiveRuntime.new (Some p) config) in
         getCurrentPhase rt = DENSE_SEQUENTIAL
         /\ getTotalAdaptations rt = 1
         /\ prefetcher_ rt
            = Some {| prefetch_distance := 256; prefetch_degree := 4;
                      predictive := predictive p |}).
Proof.
  split; [exact adapt_cold |].
  split; [intros rt _ Hsame; apply adapt_same_phase; exact Hsame |].
  split.
  - intros rt Hlen Hnew detected rt'. subst rt'.
    rewrite adapt_new_phase by assumption. fold detected. simpl.
    split.
    + pose proof (detectExecutionPhase_known (computeAverageMetrics (metrics_history_ rt)))
        as Hknown.
      fold detected in Hknown. unfold apply_table.
      destruct detected; [congruence | ..]; simpl; eexists; eexists;
        (split; [reflexivity |]); destruct (prefetcher_ rt); reflexivity.
    + repeat split; try reflexivity.
      intros Hrange. unfold wrap64, U64_MOD in *. apply Z.mod_small. lia.
  - intros p config ms Hcap Hlen Hdense rt.
    destruct (ticks_dense_invariant p config ms Hcap Hdense) as (_ & _ & _ & Hwarm).
    destruct (Hwarm Hlen) as (Hph & Htot & Hpf).
    unfold getCurrentPhase, getTotalAdaptations. subst rt.
    rewrite Hph, Htot, Hpf. repeat split; reflexivity.
Qed.

End RuntimeFacts.

(** *** Concrete runs of the runtime *)

Lemma adaptation_tick_follows_table_witness :
  let rt := AdaptiveRuntime.ticks (repeat dense_metrics 12)
              (AdaptiveRuntime.new (Some plain_prefetcher) AdaptiveRuntime.default_config) in
  AdaptiveRuntime.getCurrentPhase rt = AdaptiveRuntime.DENSE_SEQUENTIAL
  /\ AdaptiveRuntime.getTotalAdaptations rt = 1
  /\ AdaptiveRuntime.prefetcher_ rt
     = Some {| AdaptiveRuntime.prefetch_distance := 256;
               AdaptiveRuntime.prefetch_degree := 4;
               AdaptiveRuntime.predictive := tt |}.
Proof.
  apply (proj2 (proj2 (proj2 (@adaptation_tick_follows_table unit)))
           plain_prefetcher AdaptiveRuntime.default_config (repeat dense_metrics 12)).
  - vm_compute. discriminate.
  - vm_compute. lia.
  - intros k Hk.
    assert (Hcases : k = 10%nat \/ k = 11%nat \/ k = 12%nat) by (simpl in Hk; lia).
    destruct Hcases as [-> | [-> | ->]]; vm_compute; reflexivity.
Defined.

(** C3 as stated fails: the transition to [DENSE_SEQUENTIAL] sets distance
    and degree but does not reset the predictive state of the prefetcher;
    the detected stride 64 is still there, where a reset would leave 0. *)
Lemma adaptation_keeps_predictive_state :
  (10 <= length (AdaptiveRuntime.metrics_history_ runtime_before_switch))%nat
  /\ AdaptiveRuntime.current_phase_ runtime_before_switch = AdaptiveRuntime.UNKNOWN
  /\ AdaptiveRuntime.current_phase_ (fst (AdaptiveRuntime.adapt runtime_before_switch))
     = AdaptiveRuntime.DENSE_SEQUENTIAL
  /\ AdaptiveRuntime.prefetcher_ (fst (AdaptiveRuntime.adapt runtime_before_switch))
     = Some {| AdaptiveRuntime.prefetch_distance := 256;
               AdaptiveRuntime.prefetch_degree := 4;
               AdaptiveRuntime.predictive := trained_strided |}
  /\ StridedPrefetcher.detected_stride_ trained_strided = 64
  /\ trained_strided <> StridedPrefetcher.reset trained_strided.
Proof.
  split; [vm_compute; lia |].
  split; [reflexivity |].
  split; [vm_compute; reflexivity |].
  split; [vm_compute; reflexivity |].
  split; [vm_compute; reflexivity |].
  intros Heq. apply (f_equal StridedPrefetcher.detected_stride_) in Heq.
  vm_compute in Heq. discriminate.
Qed.

(** ** The strided prefetcher *)

Section StridedFacts.

Import StridedPrefetcher.

(** The queue update of [detectStride] is the bounded append of the history
    buffer, with capacity [HISTORY_SIZE]. *)
Lemma detectStride_queue (addr : Z) (st : State) :
  recent_addresses_ (detectStride addr st)
  = AdaptiveRuntime.history_append 8 (recent_addresses_ st) addr.
Proof.
  unfold detectStride, AdaptiveRuntime.history_append, HISTORY_SIZE.
  set (queue := recent_addresses_ st ++ [addr]).
  destruct (Nat.ltb_spec (length queue) 8) as [Hshort | Hlong]; simpl.
  - destruct (Z.ltb_spec 8 (Z.of_nat (length queue))); [lia | reflexivity].
  - destruct (Nat.ltb_spec 8 (length queue)), (Z.ltb_spec 8 (Z.of_nat (length queue)));
      try reflexivity; lia.
Qed.

(** X3: after any run from the constructor the queue holds the last eight
    addresses fed, in arrival order. *)
Lemma feed_queue (addrs : list Z) :
  recent_addresses_ (feed addrs new) = skipn (length addrs - 8) addrs.
Proof.
  change (skipn (length addrs - 8) addrs) with (most_recent 8 addrs).
  rewrite <- history_fold_most_recent by lia.
  unfold feed. change (@nil Z) with (recent_addresses_ new).
  generalize new as st. induction addrs as [| a addrs IH]; intros st; [reflexivity |].
  simpl fold_left. rewrite IH, detectStride_queue. reflexivity.
Qed.

Lemma strides_from_nonnull (prev_addr : Z) (queue : list Z) :
  prev_addr <> 0 ->
  Forall (fun a => a <> 0) queue ->
  strides_from prev_addr queue = window_deltas (prev_addr :: queue).
Proof.
  intros Hprev Hall. revert prev_addr Hprev.
  induction Hall as [| a queue Ha _ IH]; intros prev_addr Hprev; [reflexivity |].
  simpl strides_from. destruct (Z.eqb_spec prev_addr 0) as [Hz | _]; [contradiction |].
  rewrite IH by exact Ha. reflexivity.
Qed.

(** On a window without the null address the strides the code computes are
    the deltas between consecutive addresses. *)
Lemma strides_of_nonnull_window (queue : list Z) :
  Forall (fun a => a <> 0) queue ->
  strides_from 0 queue = window_deltas queue.
Proof.
  intros Hall. destruct Hall as [| a queue Ha Hrest]; [reflexivity |].
  simpl strides_from. rewrite strides_from_nonnull by assumption.
  destruct queue; reflexivity.
Qed.

Lemma checked_stride_inconsistent (strides : list Z) (detected : Z) :
  all_equal_positive strides = false -> checked_stride strides detected = detected.
Proof.
  unfold all_equal_positive, checked_stride. destruct strides as [| d rest]; [reflexivity |].
  intros ->. reflexivity.
Qed.

Lemma checked_stride_consistent (strides : list Z) (detected : Z) :
  all_equal_positive strides = true -> checked_stride strides detected = hd 0 strides.
Proof.
  unfold all_equal_positive, checked_stride. destruct strides as [| d rest]; [discriminate |].
  intros ->. reflexivity.
Qed.

(** X2: from every state, a call whose window holds no null address and
    whose consecutive deltas are not all equal and positive keeps the
    detected stride. *)
Lemma detectStride_inconsistent_nonnull (addr : Z) (st : State) :
  Forall (fun a => a <> 0) (recent_addresses_ st ++ [addr]) ->
  all_equal_positive (window_deltas (recent_addresses_ st ++ [addr])) = false ->
  detected_stride_ (detectStride addr st) = detected_stride_ st.
Proof.
  intros Hnonnull Hbad. unfold detectStride.
  destruct (length (recent_addresses_ st ++ [addr]) <? HISTORY_SIZE)%nat; [reflexivity |].
  simpl. rewrite strides_of_nonnull_window by exact Hnonnull.
  apply checked_stride_inconsistent. exact Hbad.
Qed.

(** Fed the eight addresses 0, 64, ..., 448 a fresh detector detects the
    stride 64 and holds the eight addresses in arrival order. *)
Lemma detectStride_constant_delta :
  detected_stride_ (feed [0; 64; 128; 192; 256; 320; 384; 448] new) = 64
  /\ recent_addresses_ (feed [0; 64; 128; 192; 256; 320; 384; 448] new)
     = [0; 64; 128; 192; 256; 320; 384; 448].
Proof. split; vm_compute; reflexivity. Qed.

End StridedFacts.

Lemma detectStride_inconsistent_nonnull_witness :
  StridedPrefetcher.detected_stride_ (StridedPrefetcher.detectStride 5000 trained_strided)
  = StridedPrefetcher.detected_stride_ trained_strided.
Proof.
  apply detectStride_inconsistent_nonnull.
  - vm_compute. repeat constructor; discriminate.
  - vm_compute. reflexivity.
Defined.

(** C7 (the code departs from the claim): fed the eight addresses of
    [window_from_null] a fresh detector adopts the stride 64, although the
    consecutive deltas of the window, 1000 followed by six times 64, are not
    all equal.  The loop treats the buffered address 0 as "no previous
    address" and skips the delta that follows it. *)
Theorem detectStride_skips_delta_after_null :
  window_deltas window_from_null = [1000; 64; 64; 64; 64; 64; 64]
  /\ all_equal_positive (window_deltas window_from_null) = false
  /\ StridedPrefetcher.strides_from 0 window_from_null = [64; 64; 64; 64; 64; 64]
  /\ StridedPrefetcher.detected_stride_ StridedPrefetcher.new = 0
  /\ StridedPrefetcher.detected_stride_
       (StridedPrefetcher.feed window_from_null StridedPrefetcher.new) = 64
  /\ StridedPrefetcher.recent_addresses_
       (StridedPrefetcher.feed window_from_null StridedPrefetcher.new) = window_from_null.
Proof. repeat split; vm_compute; reflexivity. Qed.

(** ** The IMA prefetcher *)

Section IMAFacts.

Import IMAPrefetcher.

Lemma push_bounded_length (chain : list Z) (target_addr : Z) :
  (length chain <= 4)%nat ->
  (1 <= length (push_bounded chain target_addr) <= 4)%nat.
Proof.
  intros Hlen. unfold push_bounded, MAX_CHAIN_LENGTH.
  destruct (Nat.ltb_spec (length chain) 4) as [Hlt | Hge]; rewrite length_app; simpl.
  - lia.
  - destruct chain as [| c chain]; simpl in *; lia.
Qed.

Lemma push_bounded_last (chain : list Z) (target_addr : Z) :
  exists older, push_bounded chain target_addr = older ++ [target_addr].
Proof.
  unfold push_bounded. destruct (length chain <? MAX_CHAIN_LENGTH)%nat; eexists; reflexivity.
Qed.

Lemma learn_lookup (base_addr target_addr : Z) (st : State) :
  pointer_chains_ (learnPointerChain base_addr target_addr st) !! base_addr
  = Some (push_bounded (default [] (pointer_chains_ st !! base_addr)) target_addr).
Proof. unfold learnPointerChain. simpl. apply lookup_insert_eq. Qed.

Lemma learn_bounded (base_addr target_addr : Z) (st : State) :
  chains_bounded st -> chains_bounded (learnPointerChain base_addr target_addr st).
Proof.
  intros Hb k chain. unfold learnPointerChain. simpl.
  destruct (decide (base_addr = k)) as [-> | Hne].
  - rewrite lookup_insert_eq. intros [= <-]. apply push_bounded_length.
    destruct (pointer_chains_ st !! k) as [old |] eqn:Hold; simpl; [| lia].
    apply (Hb k old Hold).
  - rewrite lookup_insert_ne by exact Hne. apply Hb.
Qed.

Lemma step_bounded (op : Op) (st : State) :
  chains_bounded st -> chains_bounded (step op st).
Proof.
  intros Hb. destruct op as [b t | d s |]; simpl.
  - apply learn_bounded. exact Hb.
  - exact Hb.
  - intros k chain. simpl. rewrite lookup_empty. discriminate.
Qed.

Lemma run_bounded (ops : list Op) (st : State) :
  chains_bounded st -> chains_bounded (run ops st).
Proof.
  revert st. induction ops as [| op ops IH]; intros st Hb; [exact Hb |].
  simpl. apply IH. apply step_bounded. exact Hb.
Qed.

Lemma new_bounded : chains_bounded new.
Proof. intros k chain. simpl. rewrite lookup_empty. discriminate. Qed.

Lemma in_firstn_in (n : nat) (l : list Z) (x : Z) : In x (firstn n l) -> In x l.
Proof.
  revert l. induction n as [| n IH]; intros [| a l]; simpl; try tauto.
  intros [H | H]; [left; exact H | right; apply IH; exact H].
Qed.

Lemma firstn_keeps_last (n : nat) (older : list Z) (x : Z) :
  (length (older ++ [x]) <= n)%nat -> In x (firstn n (older ++ [x])).
Proof.
  intros Hlen. rewrite firstn_all2 by exact Hlen. apply in_or_app. right. left. reflexivity.
Qed.

(** C8 (as amended): in every state reached from the constructor,
    [learnPointerChain(A, B)] leaves every chain with one to four entries
    and puts [B] at the end of the chain of [A]; [prefetch(A)] then hints the
    first [prefetch_distance_] entries of that chain, oldest first, so [B] is
    hinted when the distance is at least the length of the chain (always
    when it is at least 4, and when [A] had no chain and the distance is at
    least 1).  Learning a successor for an address whose chain is full drops
    the oldest entry, which is then hinted no more unless it was learned
    again.  [prefetch] of an address that has no chain hints exactly the
    address plus the configured stride. *)
Theorem ima_prefetcher_learns_bounded_chains (ops : list Op) (A B : Z) :
  let st := run ops new in
  let st' := learnPointerChain A B st in
  let distance := prefetch_distance_ st' in
  (forall (k : Z) (chain : list Z),
      pointer_chains_ st' !! k = Some chain -> (1 <= length chain <= 4)%nat)
  /\ (exists older : list Z,
         pointer_chains_ st' !! A = Some (older ++ [B])
         /\ prefetch A st' = firstn (Z.to_nat distance) (older ++ [B])
         /\ (Z.of_nat (length (older ++ [B])) <= distance -> In B (prefetch A st')))
  /\ (4 <= distance -> In B (prefetch A st'))
  /\ (pointer_chains_ st !! A = None -> 1 <= distance -> prefetch A st' = [B])
  /\ (forall c1 c2 c3 c4 : Z,
         pointer_chains_ st !! A = Some [c1; c2; c3; c4] ->
         pointer_chains_ st' !! A = Some [c2; c3; c4; B]
         /\ (~ In c1 [c2; c3; c4; B] -> ~ In c1 (prefetch A st')))
  /\ (forall X : Z,
         pointer_chains_ st !! X = None ->
         prefetch X st = [wrap64 (X + cache_line_size_ st)]).
Proof.
  intros st st' distance.
  assert (Hb : chains_bounded st) by (apply run_bounded, new_bounded).
  assert (Hb' : chains_bounded st') by (apply learn_bounded, Hb).
  pose proof (learn_lookup A B st) as Hlook. fold st' in Hlook.
  destruct (push_bounded_last (default [] (pointer_chains_ st !! A)) B) as [older Holder].
  rewrite Holder in Hlook.
  assert (Hpre : prefetch A st' = firstn (Z.to_nat distance) (older ++ [B])).
  { unfold prefetch. rewrite Hlook. reflexivity. }
  split; [exact Hb' |].
  split.
  { exists older. split; [exact Hlook |]. split; [exact Hpre |].
    intros Hd. rewrite Hpre. apply firstn_keeps_last. lia. }
  split.
  { intros Hd. rewrite Hpre. apply firstn_keeps_last.
    pose proof (Hb' A _ Hlook). lia. }
  split.
  { intros Hnone Hd. unfold prefetch.
    replace (pointer_chains_ st' !! A) with (Some [B])
      by (unfold st'; rewrite learn_lookup, Hnone; reflexivity).
    fold distance. destruct (Z.to_nat distance) as [| n] eqn:Hn; [lia |].
    simpl. destruct n; reflexivity. }
  split.
  { intros c1 c2 c3 c4 Hfull.
    assert (Hnew : pointer_chains_ st' !! A = Some [c2; c3; c4; B]).
    { unfold st'. rewrite learn_lookup, Hfull. reflexivity. }
    split; [exact Hnew |].
    intros Hnotin Hin. unfold prefetch in Hin. rewrite Hnew in Hin.
    apply Hnotin. revert Hin. apply in_firstn_in. }
  intros X Hnone. unfold prefetch. rewrite Hnone. reflexivity.
Qed.

End IMAFacts.

Lemma ima_prefetcher_learns_bounded_chains_witness :
  let st' := IMAPrefetcher.learnPointerChain 100 5
               (IMAPrefetcher.run ima_four_learned IMAPrefetcher.new) in
  IMAPrefetcher.pointer_chains_ st' !! 100 = Some [2; 3; 4; 5]
  /\ ~ In 1 (IMAPrefetcher.prefetch 100 st')
  /\ In 5 (IMAPrefetcher.prefetch 100 st').
Proof.
  pose proof (ima_prefetcher_learns_bounded_chains ima_four_learned 100 5)
    as (_ & _ & Hfresh & _ & Hfull & _).
  destruct (Hfull 1 2 3 4) as [Hchain Hgone]; [vm_compute; reflexivity |].
  split; [exact Hchain |].
  split.
  - apply Hgone. simpl. intros [H | [H | [H | [H | []]]]]; discriminate.
  - apply Hfresh. vm_compute. discriminate.
Defined.

(** C8 as stated fails: with the default distance 1, after
    [learnPointerChain(100, 200)] and then [learnPointerChain(100, 300)],
    [prefetch(100)] hints 200 only, not the successor 300 just learned. *)
Lemma ima_prefetch_misses_latest_successor :
  let st := IMAPrefetcher.learnPointerChain 100 300
              (IMAPrefetcher.learnPointerChain 100 200 IMAPrefetcher.new) in
  1 <= IMAPrefetcher.prefetch_distance_ st
  /\ IMAPrefetcher.prefetch 100 st = [200]
  /\ ~ In 300 (IMAPrefetcher.prefetch 100 st).
Proof.
  assert (Hhints : IMAPrefetcher.prefetch 100
                     (IMAPrefetcher.learnPointerChain 100 300
                        (IMAPrefetcher.learnPointerChain 100 200 IMAPrefetcher.new))
                   = [200]) by (vm_compute; reflexivity).
  split; [vm_compute; discriminate |].
  split; [exact Hhints |].
  cbv zeta. rewrite Hhints. simpl. intros [H | []]. discriminate.
Qed.

(** ** The performance monitor: unavailable counters *)

Section MonitorUnavailable.

Import PerformanceMonitor.






End MonitorUnavailable.

(** ** The controller when the counters are unavailable *)

Section ControllerUnavailable.

Import AdaptiveRuntime.

Context {Predictive : Type}.

Local Abbreviation Runtime := (AdaptiveRuntime.Runtime Predictive).
Local Abbreviation Prefetcher := (AdaptiveRuntime.Prefetcher Predictive).











End ControllerUnavailable.



(** ** Witnesses for the history buffer and the phase hint *)

Lemma history_is_bounded_fifo_witness :
  AdaptiveRuntime.metrics_history_
    (AdaptiveRuntime.ticks (map metrics_at [1; 2; 3; 4; 5])
       (AdaptiveRuntime.new (Some plain_prefetcher) config_keep_three))
  = map metrics_at [3; 4; 5].
Proof.
  pose proof (history_is_bounded_fifo (Some plain_prefetcher) config_keep_three
                (map metrics_at [1; 2; 3; 4; 5])) as H.
  destruct H as (_ & Hrecent & _).
  - vm_compute. discriminate.
  - exact Hrecent.
Defined.

Lemma hintPhase_frame_witness :
  let rt := AdaptiveRuntime.new (@None (AdaptiveRuntime.Prefetcher unit))
              AdaptiveRuntime.default_config in
  AdaptiveRuntime.hintPhase AdaptiveRuntime.DENSE_SEQUENTIAL rt = (rt, [])
  /\ AdaptiveRuntime.hintPhase AdaptiveRuntime.UNKNOWN
       (AdaptiveRuntime.new (Some plain_prefetcher) AdaptiveRuntime.default_config)
     = (AdaptiveRuntime.new (Some plain_prefetcher) AdaptiveRuntime.default_config, []).
Proof.
  split.
  - apply (proj2 (@hintPhase_frame unit)). reflexivity.
  - apply (proj1 (@hintPhase_frame unit)).
Defined.

(** ** The windowed metrics *)

Section ExtractMetricsFacts.

Import AdaptiveRuntime.

(** X4: for every sample whose [hits + misses + 1] does not wrap, the hit
    rate that [extractMetrics] stores is 0.0, the integer quotient. *)
Lemma hit_rate_truncates (hits misses : Z) :
  0 <= hits -> 0 <= misses -> hits + misses + 1 < U64_MOD ->
  hit_rate hits misses = Some 0%float.
Proof.
  intros Hh Hm Hsmall. unfold hit_rate, udiv64, wrap64, U64_MOD in *.
  rewrite (Z.mod_small (hits + misses)) by lia.
  rewrite (Z.mod_small (hits + misses + 1)) by lia.
  destruct (Z.eqb_spec (hits + misses + 1) 0) as [Hz | _]; [lia |].
  rewrite Z.div_small by lia. reflexivity.
Qed.

End ExtractMetricsFacts.

Lemma hit_rate_truncates_witness : AdaptiveRuntime.hit_rate 9 0 = Some 0%float.
Proof. apply hit_rate_truncates; vm_compute; [discriminate | discriminate | reflexivity]. Defined.

(** C4 (the code departs from the claim): for nine hits and no miss
    [extractMetrics] stores the hit rates 0, the integer quotient 9 / 10,
    where the claim asks for the real quotient 0.9; the prefetch rate of the
    same sample, whose numerator is cast to [double] first, is 0.9. *)
Theorem extractMetrics_hit_rate_is_integer_quotient :
  exists m : AdaptiveRuntime.PhaseMetrics,
    AdaptiveRuntime.extractMetrics counters_all_hits 5 = Some m
    /\ AdaptiveRuntime.l1_hit_rate m = 0%float
    /\ AdaptiveRuntime.l2_hit_rate m = 0%float
    /\ AdaptiveRuntime.l3_hit_rate m = 0%float
    /\ spec_hit_rate 9 0 = 0.9%float
    /\ AdaptiveRuntime.l1_hit_rate m <> spec_hit_rate 9 0
    /\ AdaptiveRuntime.prefetch_useful_rate m = 0.9%float.
Proof.
  eexists. split; [vm_compute; reflexivity |].
  repeat split; try (vm_compute; reflexivity).
  simpl. intros Heq. apply (f_equal (fun x => PrimFloat.ltb 0 x)) in Heq.
  vm_compute in Heq. discriminate.
Qed.

(** ** The derived rates of a sample *)

(** C5 as stated fails: with five instructions and no cycle [ipc()] is 0.0,
    not 5 / max(0, 1) = 5.0. *)
Lemma ipc_without_cycles_is_zero :
  PerformanceMonitor.ipc sample_without_cycles = 0%float
  /\ floored_rate (PerformanceMonitor.instructions sample_without_cycles)
                  (PerformanceMonitor.cycles sample_without_cycles) = 5%float
  /\ PerformanceMonitor.ipc sample_without_cycles
     <> floored_rate (PerformanceMonitor.instructions sample_without_cycles)
                     (PerformanceMonitor.cycles sample_without_cycles).
Proof.
  split; [vm_compute; reflexivity |].
  split; [vm_compute; reflexivity |].
  intros Heq. apply (f_equal (fun x => PrimFloat.ltb 0 x)) in Heq.
  vm_compute in Heq. discriminate.
Qed.

(** ** Binary64 facts: conversions of counters and their quotients *)

(** [u64_to_double] is the integer rounded to nearest, ties to even, also
    where the top bit is set: checked against the reference rounding of the
    float specification at the ends of the range and around a tie. *)
Lemma u64_to_double_rounds_to_nearest :
  Forall
    (fun z => u64_to_double z = SF2Prim (binary_normalize prec emax z 0 false))
    [ 0; 1; 2 ^ 53 + 1; 2 ^ 63 - 1; 2 ^ 63; 2 ^ 63 + 1023; 2 ^ 63 + 1024;
      2 ^ 63 + 1025; 2 ^ 63 + 3072; 2 ^ 63 + 3073; 2 ^ 64 - 1025; 2 ^ 64 - 1 ].
Proof. repeat constructor; vm_compute; reflexivity. Qed.

Lemma digits2_pos_log2 (p : positive) :
  Zpos (SpecFloat.digits2_pos p) = Z.log2 (Zpos p) + 1.
Proof.
  assert (Hsize : forall q, SpecFloat.digits2_pos q = Pos.size q).
  { induction q as [q IH | q IH |]; simpl; rewrite ?IH; reflexivity. }
  rewrite Hsize. destruct p as [q | q |]; simpl; try reflexivity; lia.
Qed.

Lemma Zdigits2_pos (m : Z) : 0 < m -> SpecFloat.Zdigits2 m = Z.log2 m + 1.
Proof. destruct m as [| p | p]; try lia. intros _. apply digits2_pos_log2. Qed.

Lemma Zdigits2_nonneg (m : Z) : 0 <= SpecFloat.Zdigits2 m.
Proof. destruct m; simpl; lia. Qed.

Lemma Zdigits2_mono (a b : Z) : 0 <= a <= b -> SpecFloat.Zdigits2 a <= SpecFloat.Zdigits2 b.
Proof.
  intros [Ha Hab]. destruct (Z.eq_dec a 0) as [-> | Hne]; [apply Zdigits2_nonneg |].
  rewrite !Zdigits2_pos by lia. pose proof (Z.log2_le_mono a b Hab). lia.
Qed.

Lemma Zdigits2_succ (a : Z) : 0 <= a -> SpecFloat.Zdigits2 (a + 1) <= SpecFloat.Zdigits2 a + 1.
Proof.
  intros Ha. destruct (Z.eq_dec a 0) as [-> | Hne]; [simpl; lia |].
  rewrite !Zdigits2_pos by lia. pose proof (Z.log2_succ_le a). unfold Z.succ in *. lia.
Qed.

Lemma Zdigits2_lower (m : Z) : 0 < m -> 2 ^ (SpecFloat.Zdigits2 m - 1) <= m.
Proof.
  intros Hm. rewrite Zdigits2_pos by exact Hm.
  replace (Z.log2 m + 1 - 1) with (Z.log2 m) by lia.
  apply Z.log2_spec. exact Hm.
Qed.

Lemma Zdigits2_shiftl (m s : Z) : 0 < m -> 0 <= s ->
  SpecFloat.Zdigits2 (Z.shiftl m s) = SpecFloat.Zdigits2 m + s.
Proof.
  intros Hm Hs.
  assert (0 < Z.shiftl m s).
  { rewrite Z.shiftl_mul_pow2 by exact Hs. apply Z.mul_pos_pos; [exact Hm |]. apply Z.pow_pos_nonneg; lia. }
  rewrite !Zdigits2_pos by assumption. rewrite Z.log2_shiftl by lia. lia.
Qed.

Lemma Zdigits2_mul (a b : Z) : 0 < a -> 0 < b ->
  SpecFloat.Zdigits2 (a * b) <= SpecFloat.Zdigits2 a + SpecFloat.Zdigits2 b.
Proof.
  intros Ha Hb. rewrite !Zdigits2_pos by nia.
  pose proof (Z.log2_mul_above a b). lia.
Qed.

Lemma shr_1_m (mrs : shr_record) : 0 <= shr_m mrs -> shr_m (shr_1 mrs) = shr_m mrs / 2.
Proof.
  destruct mrs as [m r s]. simpl. intros Hm.
  destruct m as [| p | p]; [reflexivity | | lia].
  destruct p as [q | q |]; simpl.
  - rewrite Pos2Z.inj_xI. apply Z.div_unique with (r := 1); lia.
  - rewrite Pos2Z.inj_xO. apply Z.div_unique with (r := 0); lia.
  - reflexivity.
Qed.

Lemma shr_iter_m (p : positive) (mrs : shr_record) :
  0 <= shr_m mrs -> shr_m (SpecFloat.iter_pos shr_1 p mrs) = shr_m mrs / 2 ^ Zpos p.
Proof.
  revert mrs. induction p as [p IH | p IH |]; intros mrs Hm; simpl SpecFloat.iter_pos.
  - assert (Hpow : 0 < 2 ^ Zpos p) by (apply Z.pow_pos_nonneg; lia).
    assert (H1 : 0 <= shr_m (shr_1 mrs)) by (rewrite shr_1_m by exact Hm; apply Z.div_pos; lia).
    assert (H2 : 0 <= shr_m (SpecFloat.iter_pos shr_1 p (shr_1 mrs)))
      by (rewrite IH by exact H1; apply Z.div_pos; lia).
    rewrite IH by exact H2. rewrite IH by exact H1. rewrite shr_1_m by exact Hm.
    rewrite !Z.div_div by lia.
    f_equal. replace (Zpos p~1) with (1 + Zpos p + Zpos p) by lia.
    rewrite !Z.pow_add_r by lia. change (2 ^ 1) with 2. ring.
  - assert (Hpow : 0 < 2 ^ Zpos p) by (apply Z.pow_pos_nonneg; lia).
    assert (H2 : 0 <= shr_m (SpecFloat.iter_pos shr_1 p mrs))
      by (rewrite IH by exact Hm; apply Z.div_pos; lia).
    rewrite IH by exact H2. rewrite IH by exact Hm.
    rewrite Z.div_div by lia.
    f_equal. replace (Zpos p~0) with (Zpos p + Zpos p) by lia.
    rewrite Z.pow_add_r by lia. reflexivity.
  - rewrite shr_1_m by exact Hm. reflexivity.
Qed.

Lemma shr_record_of_loc_m (m : Z) (l : location) : shr_m (shr_record_of_loc m l) = m.
Proof. destruct l as [| []]; reflexivity. Qed.

Lemma fexp64_eq (k : Z) : fexp prec emax k = Z.max (k - 53) (-1074).
Proof. reflexivity. Qed.

Lemma shr_fexp_bounds (m e : Z) (l : location) :
  0 <= m -> -1074 <= e ->
  0 <= shr_m (fst (shr_fexp prec emax m e l)) <= m
  /\ (0 < m -> 0 < shr_m (fst (shr_fexp prec emax m e l)))
  /\ e <= snd (shr_fexp prec emax m e l) <= Z.max e (SpecFloat.Zdigits2 m + e - 53).
Proof.
  intros Hm He. unfold shr_fexp, shr. rewrite fexp64_eq.
  destruct (Z.max (SpecFloat.Zdigits2 m + e - 53) (-1074) - e) as [| p | p] eqn:Hn;
    simpl fst; simpl snd; rewrite ?shr_record_of_loc_m; try lia.
  rewrite shr_iter_m by (rewrite shr_record_of_loc_m; exact Hm).
  rewrite shr_record_of_loc_m.
  assert (Hpow : 0 < 2 ^ Zpos p) by (apply Z.pow_pos_nonneg; lia).
  split; [split; [apply Z.div_pos; lia | apply Z.div_le_upper_bound; nia] |].
  split; [| lia].
  intros Hpos. apply Z.div_str_pos. split; [exact Hpow |].
  apply Z.le_trans with (2 ^ (SpecFloat.Zdigits2 m - 1)); [| apply Zdigits2_lower; exact Hpos].
  apply Z.pow_le_mono_r; lia.
Qed.

Lemma round_nearest_even_bounds (m : Z) (l : location) :
  m <= round_nearest_even m l <= m + 1.
Proof.
  unfold round_nearest_even. destruct l as [| []]; try lia.
  destruct (Z.even m); lia.
Qed.

(** Rounding a non-negative mantissa of at most [D] digits, at an exponent
    in range, gives zero or a finite number of the same sign; the exponent
    moves up by a bounded amount and the mantissa grows by at most one. *)
Lemma binary_round_aux_finite (sx : bool) (mx ex : Z) (lx : location) (D : Z) :
  0 <= mx -> SpecFloat.Zdigits2 mx <= D -> -1074 <= ex ->
  Z.max ex (D + ex - 53) + Z.max 0 (D - 52) <= 971 ->
  (binary_round_aux prec emax sx mx ex lx = S754_zero sx /\ mx = 0)
  \/ (exists (m : positive) (e : Z),
         binary_round_aux prec emax sx mx ex lx = S754_finite sx m e
         /\ ex <= e <= Z.max ex (D + ex - 53) + Z.max 0 (D - 52)
         /\ Zpos m <= mx + 1).
Proof.
  intros Hm HD He Hfit. unfold binary_round_aux.
  pose proof (shr_fexp_bounds mx ex lx Hm He) as (Hm1 & Hpos1 & He1).
  destruct (shr_fexp prec emax mx ex lx) as [mrs' e'] eqn:H1. simpl fst in *; simpl snd in *.
  pose proof (round_nearest_even_bounds (shr_m mrs') (loc_of_shr_record mrs')) as Hr.
  set (m1 := round_nearest_even (shr_m mrs') (loc_of_shr_record mrs')) in *.
  assert (Hm1' : 0 <= m1) by lia.
  assert (He' : -1074 <= e') by lia.
  pose proof (shr_fexp_bounds m1 e' loc_Exact Hm1' He') as (Hm2 & Hpos2 & He2).
  destruct (shr_fexp prec emax m1 e' loc_Exact) as [mrs'' e''] eqn:H2.
  simpl fst in *; simpl snd in *.
  assert (Hd1 : SpecFloat.Zdigits2 m1 <= D + 1).
  { apply Z.le_trans with (SpecFloat.Zdigits2 (mx + 1)); [apply Zdigits2_mono; lia |].
    pose proof (Zdigits2_succ mx Hm). lia. }
  destruct (shr_m mrs'') as [| m | m] eqn:Hres.
  - left. split; [reflexivity |].
    destruct (Z.eq_dec mx 0) as [Hz | Hnz]; [exact Hz |].
    assert (0 < shr_m mrs') by (apply Hpos1; lia).
    assert (0 < 0) by (apply Hpos2; lia). lia.
  - right. exists m, e''.
    change (emax - prec) with 971.
    destruct (Z.leb_spec e'' 971) as [_ | Hover]; [| lia].
    split; [reflexivity |]. split; lia.
  - lia.
Qed.

Lemma iter_xO_shiftl (p d : positive) :
  Zpos (Pos.iter xO p d) = Z.shiftl (Zpos p) (Zpos d).
Proof.
  change (Z.shiftl (Zpos p) (Zpos d)) with (Pos.iter (Z.mul 2) (Zpos p) d).
  apply (Pos.iter_swap_gen _ _ Zpos xO (Z.mul 2)). intros a. reflexivity.
Qed.

Lemma of_uint63_positive_finite (z : Z) :
  0 < z < 2 ^ 63 ->
  positive_finite (-52) 21 64 (Prim2SF (PrimFloat.of_uint63 (Uint63.of_Z z))).
Proof.
  intros Hz. rewrite of_uint63_spec, Uint63.of_Z_spec.
  rewrite Z.mod_small by (change wB with (2 ^ 63); lia).
  destruct z as [| p | p]; try lia.
  assert (Hdig : 1 <= SpecFloat.Zdigits2 (Zpos p) <= 63).
  { rewrite Zdigits2_pos by lia. pose proof (Z.log2_nonneg (Zpos p)).
    assert (Z.log2 (Zpos p) < 63) by (apply Z.log2_lt_pow2; lia). lia. }
  unfold binary_normalize, binary_round, shl_align. rewrite fexp64_eq.
  change (Zpos (SpecFloat.digits2_pos p)) with (SpecFloat.Zdigits2 (Zpos p)).
  destruct (Z.max (SpecFloat.Zdigits2 (Zpos p) + 0 - 53) (-1074) - 0) as [| d | d] eqn:Hshift.
  - destruct (binary_round_aux_finite false (Zpos p) 0 loc_Exact 63)
      as [[_ Hzero] | (m & e & Hres & He & Hmant)]; try lia.
    exists m, e. split; [exact Hres |]. split; [lia |].
    apply Z.le_trans with (SpecFloat.Zdigits2 (Zpos p + 1)); [apply Zdigits2_mono; lia |].
    pose proof (Zdigits2_succ (Zpos p)). lia.
  - destruct (binary_round_aux_finite false (Zpos p) 0 loc_Exact 63)
      as [[_ Hzero] | (m & e & Hres & He & Hmant)]; try lia.
    exists m, e. split; [exact Hres |]. split; [lia |].
    apply Z.le_trans with (SpecFloat.Zdigits2 (Zpos p + 1)); [apply Zdigits2_mono; lia |].
    pose proof (Zdigits2_succ (Zpos p)). lia.
  - assert (Hmz : SpecFloat.Zdigits2 (Zpos (Pos.iter xO p d)) = 53).
    { rewrite iter_xO_shiftl, Zdigits2_shiftl by lia. lia. }
    destruct (binary_round_aux_finite false (Zpos (Pos.iter xO p d))
                (Z.max (SpecFloat.Zdigits2 (Zpos p) + 0 - 53) (-1074)) loc_Exact 53)
      as [[_ Hzero] | (m & e & Hres & He & Hmant)]; try lia.
    exists m, e. split; [exact Hres |]. split; [lia |].
    apply Z.le_trans with (SpecFloat.Zdigits2 (Zpos (Pos.iter xO p d) + 1));
      [apply Zdigits2_mono; lia |].
    pose proof (Zdigits2_succ (Zpos (Pos.iter xO p d))). lia.
Qed.

Lemma sticky_half_range (z : Z) :
  2 ^ 63 <= z < 2 ^ 64 -> 0 < Z.lor (Z.shiftr z 1) (Z.land z 1) < 2 ^ 63.
Proof.
  intros Hz.
  assert (Hhalf : 1 <= Z.shiftr z 1 < 2 ^ 63).
  { rewrite Z.shiftr_div_pow2 by lia. change (2 ^ 1) with 2.
    change (2 ^ 63) with 9223372036854775808 in *.
    change (2 ^ 64) with 18446744073709551616 in *.
    split; [apply Z.div_le_lower_bound; lia | apply Z.div_lt_upper_bound; lia]. }
  assert (Hbit : 0 <= Z.land z 1 <= 1).
  { assert (Hland : Z.land z 1 = z mod 2) by (apply (Z.land_ones z 1); lia).
    rewrite Hland. pose proof (Z.mod_pos_bound z 2). lia. }
  assert (Hnn : 0 <= Z.lor (Z.shiftr z 1) (Z.land z 1)) by (apply Z.lor_nonneg; lia).
  assert (Hpos : 0 < Z.lor (Z.shiftr z 1) (Z.land z 1)).
  { destruct (Z.eq_dec (Z.lor (Z.shiftr z 1) (Z.land z 1)) 0) as [Hzero | Hne]; [| lia].
    apply Z.lor_eq_0_iff in Hzero. lia. }
  split; [exact Hpos |].
  - apply Z.log2_lt_pow2; [lia |].
    rewrite Z.log2_lor by lia.
    assert (Z.log2 (Z.shiftr z 1) < 63) by (apply Z.log2_lt_pow2; lia).
    assert (Z.log2 (Z.land z 1) <= 0).
    { destruct (Z.eq_dec (Z.land z 1) 0) as [-> | Hne]; [simpl; lia |].
      replace (Z.land z 1) with 1 by lia. simpl. lia. }
    lia.
Qed.

Lemma u64_to_double_positive_finite (z : Z) :
  0 < z < 2 ^ 64 ->
  positive_finite (-103) 99 118 (Prim2SF (u64_to_double z)).
Proof.
  intros Hz. unfold u64_to_double.
  destruct (Z.ltb_spec z (2 ^ 63)) as [Hsmall | Hbig].
  - destruct (of_uint63_positive_finite z) as (m & e & Hres & He & Hd); [lia |].
    exists m, e. split; [exact Hres |]. lia.
  - pose proof (sticky_half_range z) as Hw.
    destruct (of_uint63_positive_finite (Z.lor (Z.shiftr z 1) (Z.land z 1)))
      as (m & e & Hres & He & Hd); [lia |].
    rewrite FloatAxioms.mul_spec, Hres.
    replace (Prim2SF 2%float) with (S754_finite false 4503599627370496 (-51))
      by (vm_compute; reflexivity).
    unfold SF64mul, SFmul. simpl xorb.
    assert (Hprod : SpecFloat.Zdigits2 (Zpos (m * 4503599627370496)) <= 117).
    { rewrite Pos2Z.inj_mul.
      pose proof (Zdigits2_mul (Zpos m) (Zpos 4503599627370496)).
      assert (SpecFloat.Zdigits2 (Zpos 4503599627370496) = 53) by reflexivity. lia. }
    destruct (binary_round_aux_finite false (Zpos (m * 4503599627370496)) (e + -51)
                loc_Exact 117)
      as [[_ Hzero] | (m' & e' & Hres' & He' & Hmant)]; try lia.
    exists m', e'. split; [exact Hres' |]. split; [lia |].
    apply Z.le_trans with (SpecFloat.Zdigits2 (Zpos (m * 4503599627370496) + 1));
      [apply Zdigits2_mono; lia |].
    pose proof (Zdigits2_succ (Zpos (m * 4503599627370496))). lia.
Qed.

(** The quotient of two converted counters is zero or a positive finite
    number. *)
Lemma SFdiv_positive_finite (x y : spec_float) :
  positive_finite (-103) 99 118 x -> positive_finite (-103) 99 118 y ->
  SFdiv prec emax x y = S754_zero false
  \/ exists (m : positive) (e : Z), SFdiv prec emax x y = S754_finite false m e.
Proof.
  intros (mx & ex & -> & Hex & Hdx) (my & ey & -> & Hey & Hdy).
  unfold SFdiv, SFdiv_core_binary. rewrite fexp64_eq. simpl xorb.
  set (d1 := SpecFloat.Zdigits2 (Zpos mx)) in *.
  set (d2 := SpecFloat.Zdigits2 (Zpos my)) in *.
  assert (Hd1 : 1 <= d1) by (unfold d1; simpl; lia).
  assert (Hd2 : 1 <= d2) by (unfold d2; simpl; lia).
  set (e' := Z.min (Z.max (d1 + ex - (d2 + ey) - 53) (-1074)) (ex - ey)).
  set (s := ex - ey - e').
  assert (Hs : 0 <= s <= 170) by (unfold s, e'; lia).
  set (m' := match s with
             | Z0 => Zpos mx
             | Zpos _ => Z.shiftl (Zpos mx) s
             | Zneg _ => 0
             end).
  assert (Hm' : 0 <= m' /\ SpecFloat.Zdigits2 m' <= 288).
  { unfold m'. destruct s as [| p | p] eqn:Hsp; [fold d1; lia | | lia].
    rewrite Zdigits2_shiftl by lia. fold d1.
    split; [| lia]. rewrite Z.shiftl_mul_pow2 by lia.
    apply Z.mul_nonneg_nonneg; [lia |]. apply Z.pow_nonneg. lia. }
  destruct Hm' as [Hm'0 Hm'd].
  pose proof (Z.div_eucl_eq m' (Zpos my)) as Heucl.
  pose proof (Z.mod_pos_bound m' (Zpos my)) as Hmod.
  unfold Z.modulo in Hmod.
  destruct (Z.div_eucl m' (Zpos my)) as [q r] eqn:Hqr.
  specialize (Heucl ltac:(lia)). specialize (Hmod ltac:(lia)).
  assert (Hq : 0 <= q <= m') by nia.
  assert (Hqd : SpecFloat.Zdigits2 q <= 288).
  { apply Z.le_trans with (SpecFloat.Zdigits2 m'); [apply Zdigits2_mono; lia | exact Hm'd]. }
  destruct (binary_round_aux_finite false q e' (new_location (Zpos my) r) 288)
    as [[Hres _] | (m & e & Hres & _)]; try (unfold e'; lia).
  - left. exact Hres.
  - right. exists m, e. exact Hres.
Qed.

Lemma finite_nonneg_of_spec (x : float) :
  Prim2SF x = S754_zero false
  \/ (exists (m : positive) (e : Z), Prim2SF x = S754_finite false m e) ->
  finite_nonneg x = true.
Proof.
  intros Hx. unfold finite_nonneg. rewrite FloatAxioms.leb_spec, FloatAxioms.ltb_spec.
  replace (Prim2SF 0%float) with (S754_zero false) by (vm_compute; reflexivity).
  replace (Prim2SF infinity) with (S754_infinity false) by (vm_compute; reflexivity).
  destruct Hx as [-> | (m & e & ->)]; reflexivity.
Qed.

Lemma guarded_rate_finite_nonneg (num den : Z) :
  0 <= num < 2 ^ 64 -> 0 <= den < 2 ^ 64 ->
  finite_nonneg (PerformanceMonitor.guarded_rate num den) = true.
Proof.
  intros Hnum Hden. unfold PerformanceMonitor.guarded_rate.
  destruct (Z.eqb_spec den 0) as [_ | Hnz]; [vm_compute; reflexivity |].
  apply finite_nonneg_of_spec. rewrite FloatAxioms.div_spec. unfold SF64div.
  pose proof (u64_to_double_positive_finite den ltac:(lia)) as Hy.
  destruct (Z.eq_dec num 0) as [-> | Hnum0].
  - replace (Prim2SF (u64_to_double 0)) with (S754_zero false) by (vm_compute; reflexivity).
    destruct Hy as (my & ey & -> & _). left. reflexivity.
  - apply SFdiv_positive_finite; [apply u64_to_double_positive_finite; lia | exact Hy].
Qed.

Lemma guarded_rate_floored (num den : Z) :
  0 <= den ->
  PerformanceMonitor.guarded_rate num den
  = if den =? 0 then 0%float else floored_rate num den.
Proof.
  intros Hden. unfold PerformanceMonitor.guarded_rate, floored_rate.
  destruct (Z.eqb_spec den 0) as [_ | Hnz]; [reflexivity |].
  replace (Z.max den 1) with den by lia. reflexivity.
Qed.

(** C5 (as amended): for every sample of 64-bit counters, each derived rate
    is 0.0 when its denominator count is zero and otherwise the quotient with
    the denominator floored at 1 (which then is the denominator itself); all
    five rates are finite and non-negative. *)
Theorem derived_rates_guarded (s : PerformanceMonitor.PerformanceSample) :
  sample_in_range s ->
  PerformanceMonitor.ipc s
  = (if PerformanceMonitor.cycles s =? 0 then 0%float
     else floored_rate (PerformanceMonitor.instructions s) (PerformanceMonitor.cycles s))
  /\ PerformanceMonitor.l1_miss_rate s
     = (if PerformanceMonitor.instructions s =? 0 then 0%float
        else floored_rate (PerformanceMonitor.l1_misses s) (PerformanceMonitor.instructions s))
  /\ PerformanceMonitor.l2_miss_rate s
     = (if PerformanceMonitor.instructions s =? 0 then 0%float
        else floored_rate (PerformanceMonitor.l2_misses s) (PerformanceMonitor.instructions s))
  /\ PerformanceMonitor.l3_miss_rate s
     = (if PerformanceMonitor.instructions s =? 0 then 0%float
        else floored_rate (PerformanceMonitor.l3_misses s) (PerformanceMonitor.instructions s))
  /\ PerformanceMonitor.branch_miss_rate s
     = (if PerformanceMonitor.instructions s =? 0 then 0%float
        else floored_rate (PerformanceMonitor.branch_misses s) (PerformanceMonitor.instructions s))
  /\ finite_nonneg (PerformanceMonitor.ipc s) = true
  /\ finite_nonneg (PerformanceMonitor.l1_miss_rate s) = true
  /\ finite_nonneg (PerformanceMonitor.l2_miss_rate s) = true
  /\ finite_nonneg (PerformanceMonitor.l3_miss_rate s) = true
  /\ finite_nonneg (PerformanceMonitor.branch_miss_rate s) = true.
Proof.
  intros (Hi & Hc & H1 & H2 & H3 & Hb).
  unfold PerformanceMonitor.ipc, PerformanceMonitor.l1_miss_rate,
    PerformanceMonitor.l2_miss_rate, PerformanceMonitor.l3_miss_rate,
    PerformanceMonitor.branch_miss_rate.
  repeat split;
    first [ apply guarded_rate_floored; lia
          | apply guarded_rate_finite_nonneg; assumption ].
Qed.

Lemma derived_rates_guarded_witness :
  sample_in_range sample_without_cycles
  /\ PerformanceMonitor.ipc sample_without_cycles = 0%float
  /\ finite_nonneg (PerformanceMonitor.ipc sample_without_cycles) = true
  /\ finite_nonneg (PerformanceMonitor.l1_miss_rate dense_sample) = true.
Proof.
  assert (Hr : sample_in_range sample_without_cycles) by (vm_compute; intuition discriminate).
  assert (Hd : sample_in_range dense_sample) by (vm_compute; intuition discriminate).
  split; [exact Hr |].
  pose proof (derived_rates_guarded sample_without_cycles Hr) as (Hipc & _ & _ & _ & _ & Hfin & _).
  pose proof (derived_rates_guarded dense_sample Hd) as (_ & _ & _ & _ & _ & _ & Hfin1 & _).
  split; [exact Hipc |]. split; [exact Hfin | exact Hfin1].
Defined.

(** * Further properties of the code *)

(** ** The classifiers *)

Section ClassifierReach.

Import TrainedPhaseClassifier.

Lemma classify_long_known (features : list float) :
  (7 <= length features)%nat -> classify features <> Unknown.
Proof.
  intros Hlen. unfold classify.
  destruct (Nat.ltb_spec (length features) 7) as [Hlt | _]; [lia |].
  cbv zeta.
  repeat match goal with
         | |- context [PrimFloat.leb ?a ?b] => destruct (PrimFloat.leb a b)
         end; discriminate.
Qed.

(** X6: [classify] answers [Unknown] exactly on the vectors of fewer than
    seven elements; on a vector of seven or more every path of the tree ends
    in one of the three phases, NaN features included. *)
Theorem classify_unknown_iff_short (features : list float) :
  classify features = Unknown <-> (length features < 7)%nat.
Proof.
  split.
  - intros Hu. destruct (Nat.lt_ge_cases (length features) 7) as [Hlt | Hge]; [exact Hlt |].
    exfalso. exact (classify_long_known features Hge Hu).
  - apply classify_short.
Qed.

(** X7: the sample that [readCounters] returns is never classified
    [Unknown], whatever the counters read and also when no counter could be
    read: its phase is the tree's answer on the sample's own miss rate, IPC
    and branch miss rate. *)
Theorem readCounters_phase_known
    (os : PerformanceMonitor.OS) (uninit : PerformanceMonitor.PerformanceSample)
    (m : PerformanceMonitor.Monitor) :
  let sample := PerformanceMonitor.readCounters os uninit m in
  PerformanceMonitor.phase sample <> Unknown
  /\ PerformanceMonitor.phase sample
     = SpecTree.eval SpecTree.tree
         (PerformanceMonitor.l3_miss_rate sample)
         (PerformanceMonitor.ipc sample)
         (PerformanceMonitor.branch_miss_rate sample).
Proof.
  intros sample. subst sample. unfold PerformanceMonitor.readCounters.
  cbn [PerformanceMonitor.phase]. split.
  - apply classify_long_known. simpl. lia.
  - rewrite classify_spec_tree. reflexivity.
Qed.

(** X8: the tree of python/trained_classifier.cpp answers [Unknown]
    exactly on vectors of fewer than seven elements, and on longer vectors
    its answer depends on the first three features only: the test on
    [features[6]] has the same phase on both sides. *)
Theorem exported_classify_uses_three_features :
  (forall features : list float,
      ExportedPhaseClassifier.classify features = Unknown <-> (length features < 7)%nat)
  /\ (forall (f0 f1 f2 a b c d a' b' c' d' : float) (rest rest' : list float),
         ExportedPhaseClassifier.classify (f0 :: f1 :: f2 :: a :: b :: c :: d :: rest)
         = ExportedPhaseClassifier.classify (f0 :: f1 :: f2 :: a' :: b' :: c' :: d' :: rest')).
Proof.
  split.
  - intros features. unfold ExportedPhaseClassifier.classify.
    destruct (Nat.ltb_spec (length features) 7) as [Hlt | Hge].
    + split; [intros _; exact Hlt | reflexivity].
    + cbv zeta. split; [| lia].
      repeat match goal with
             | |- context [PrimFloat.leb ?a ?b] => destruct (PrimFloat.leb a b)
             end; discriminate.
  - intros. unfold ExportedPhaseClassifier.classify. simpl.
    repeat match goal with
           | |- context [PrimFloat.leb ?a ?b] => destruct (PrimFloat.leb a b)
           end; reflexivity.
Qed.

End ClassifierReach.

(** ** The performance monitor: life cycle *)

Section MonitorLifeCycle.

Import PerformanceMonitor.

Lemma open_events_opened (os : OS) (fds : list Z) :
  open_events os fds = fds ++ opened_events os.
Proof.
  unfold open_events, opened_events. generalize events as evs. intros evs. revert fds.
  induction evs as [| ev evs IH]; intros fds; simpl.
  - rewrite app_nil_r. reflexivity.
  - rewrite IH. destruct (perf_event_open os (fst ev) (snd ev) =? -1); simpl.
    + reflexivity.
    + rewrite <- app_assoc. reflexivity.
Qed.

Lemma filter_drops_one {A : Type} (f : A -> bool) (l : list A) (x : A) :
  In x l -> f x = false -> (length (List.filter f l) < length l)%nat.
Proof.
  induction l as [| a l IH]; intros Hin Hf; [destruct Hin |].
  pose proof (List.filter_length_le f l) as Hle.
  simpl. destruct Hin as [-> | Hin].
  - rewrite Hf. simpl. lia.
  - specialize (IH Hin Hf). destruct (f a); simpl; lia.
Qed.

Lemma filter_keeps_one {A : Type} (f : A -> bool) (l : list A) (x : A) :
  In x l -> f x = true -> List.filter f l <> [].
Proof.
  intros Hin Hf Hnil. assert (Hx : In x (List.filter f l)) by (apply List.filter_In; split; assumption).
  rewrite Hnil in Hx. destruct Hx.
Qed.

(** X9: when at least one of the six events opens and at least one fails,
    [initialize] on a fresh monitor returns true, but with fewer than six
    descriptors every later [readCounters] reads no counter at all: the six
    counters of the sample are whatever the uninitialised local held. *)
Theorem initialize_partial_reads_nothing
    (os : OS) (interval : Z) (ok failed : Z * Z) (uninit : PerformanceSample) :
  In ok events -> perf_event_open os (fst ok) (snd ok) <> -1 ->
  In failed events -> perf_event_open os (fst failed) (snd failed) = -1 ->
  let m := snd (initialize os interval PerformanceMonitor.new) in
  fst (initialize os interval PerformanceMonitor.new) = true
  /\ initialized_ m = true
  /\ (1 <= length (perf_fds_ m) < 6)%nat
  /\ raw_counters (readCounters os uninit m) = raw_counters uninit.
Proof.
  intros Hok Hokfd Hfail Hfailfd m.
  assert (Hfds : open_events os [] = opened_events os) by apply open_events_opened.
  assert (Hlt : (length (opened_events os) < 6)%nat).
  { unfold opened_events.
    apply Nat.lt_le_trans with
      (length (map (fun ev => perf_event_open os (fst ev) (snd ev)) events));
      [| rewrite length_map; reflexivity].
    apply filter_drops_one with (x := perf_event_open os (fst failed) (snd failed)).
    - apply in_map_iff. exists failed. split; [reflexivity | exact Hfail].
    - rewrite Hfailfd. reflexivity. }
  assert (Hne : opened_events os <> []).
  { unfold opened_events.
    apply filter_keeps_one with (x := perf_event_open os (fst ok) (snd ok)).
    - apply in_map_iff. exists ok. split; [reflexivity | exact Hok].
    - destruct (Z.eqb_spec (perf_event_open os (fst ok) (snd ok)) (-1)); [contradiction | reflexivity]. }
  assert (Hinit : initialize os interval PerformanceMonitor.new
                  = (true, {| samples_ := []; perf_fds_ := opened_events os;
                              initialized_ := true; monitoring_ := false;
                              sample_interval_ms_ := interval |})).
  { unfold initialize. simpl initialized_. cbv iota. simpl perf_fds_. rewrite Hfds.
    destruct (opened_events os) as [| fd fds]; [contradiction | reflexivity]. }
  subst m. rewrite Hinit. simpl fst. simpl snd. simpl initialized_. simpl perf_fds_.
  split; [reflexivity |]. split; [reflexivity |].
  split.
  - destruct (opened_events os); [contradiction | simpl in *; lia].
  - unfold raw_counters, readCounters, read_field. simpl.
    destruct (Nat.ltb_spec (length (opened_events os)) 6) as [_ | Hge]; [reflexivity | lia].
Qed.

(** X10: a successful [initialize] is not repeated: a second call returns
    true at once and changes nothing, the sampling interval included. *)
Theorem initialize_once (os : OS) (first second : Z) (m : Monitor) :
  fst (initialize os first m) = true ->
  initialize os second (snd (initialize os first m)) = (true, snd (initialize os first m)).
Proof.
  unfold initialize at 1 3 4.
  destruct (initialized_ m) eqn:Hinit; simpl.
  - intros _. unfold initialize. rewrite Hinit. reflexivity.
  - destruct (open_events os (perf_fds_ m)) as [| fd fds]; simpl; [discriminate |].
    intros _. reflexivity.
Qed.

(** X11: a [startMonitoring] that succeeds discards the samples held and
    marks the monitor as running; a second [startMonitoring] is then
    refused and changes nothing; [stopMonitoring] ends the run, keeps the
    samples, and is idempotent. *)
Theorem monitoring_life_cycle (os : OS) (m : Monitor) :
  fst (startMonitoring os m) = true ->
  let running := snd (startMonitoring os m) in
  let stopped := snd (stopMonitoring running) in
  initialized_ m = true /\ monitoring_ m = false
  /\ samples_ running = [] /\ monitoring_ running = true
  /\ startMonitoring os running = (false, running)
  /\ fst (stopMonitoring running) = true
  /\ monitoring_ stopped = false
  /\ samples_ stopped = samples_ running
  /\ perf_fds_ stopped = perf_fds_ m
  /\ stopMonitoring stopped = (true, stopped).
Proof.
  intros Hstart.
  assert (Hrun : startMonitoring os m
                 = (true,
                    {| samples_ := []; perf_fds_ := perf_fds_ m;
                       initialized_ := true; monitoring_ := true;
                       sample_interval_ms_ := sample_interval_ms_ m |})
                 /\ initialized_ m = true /\ monitoring_ m = false).
  { unfold startMonitoring in *.
    destruct (initialized_ m); simpl in *; [| discriminate].
    destruct (monitoring_ m); simpl in *; [discriminate |].
    destruct (reset_and_enable os (perf_fds_ m)); simpl in *; [| discriminate].
    repeat split; reflexivity. }
  destruct Hrun as (Hrun & Hinit & Hmon). rewrite Hrun. cbv zeta.
  repeat split; try assumption; reflexivity.
Qed.

Lemma step_keeps_or_clears (os : OS) (op : Op) (m : Monitor) :
  samples_ (step os op m) = samples_ m \/ samples_ (step os op m) = [].
Proof.
  destruct op as [interval | | |]; simpl.
  - left. unfold initialize. destruct (initialized_ m); [reflexivity |].
    destruct (open_events os (perf_fds_ m)); reflexivity.
  - unfold startMonitoring. destruct (negb (initialized_ m) || monitoring_ m); [left; reflexivity |].
    destruct (reset_and_enable os (perf_fds_ m)); [right | left]; reflexivity.
  - left. unfold stopMonitoring. destruct (negb (monitoring_ m)); reflexivity.
  - right. reflexivity.
Qed.

(** X12: no operation of the monitor stores a sample.  After any run of
    [initialize], [startMonitoring], [stopMonitoring] and [clearSamples], on
    any system, the samples are those held before or none; so a monitor that
    starts from the constructor never holds a sample, reports [Unknown] and
    extracts no feature, also when all six counters open ([readCounters]
    returns its sample without storing it). *)
Theorem monitor_never_collects (os : OS) (ops : list Op) :
  (forall m : Monitor,
      samples_ (run os ops m) = samples_ m \/ samples_ (run os ops m) = [])
  /\ samples_ (run os ops PerformanceMonitor.new) = []
  /\ getCurrentPhase (run os ops PerformanceMonitor.new) = Unknown
  /\ extractFeatures (run os ops PerformanceMonitor.new) = [].
Proof.
  assert (Hgen : forall m : Monitor,
             samples_ (run os ops m) = samples_ m \/ samples_ (run os ops m) = []).
  { induction ops as [| op ops IH]; intros m; [left; reflexivity |].
    simpl. destruct (IH (step os op m)) as [Hsame | Hnil]; [| right; exact Hnil].
    rewrite Hsame. apply step_keeps_or_clears. }
  split; [exact Hgen |].
  assert (Hnil : samples_ (run os ops PerformanceMonitor.new) = []).
  { destruct (Hgen PerformanceMonitor.new) as [H | H]; exact H. }
  split; [exact Hnil |].
  unfold getCurrentPhase, extractFeatures. rewrite Hnil. split; reflexivity.
Qed.

End MonitorLifeCycle.

Lemma initialize_partial_reads_nothing_witness :
  fst (PerformanceMonitor.initialize os_two_counters 1 PerformanceMonitor.new) = true
  /\ raw_counters
       (PerformanceMonitor.readCounters os_two_counters dense_sample
          (snd (PerformanceMonitor.initialize os_two_counters 1 PerformanceMonitor.new)))
     = raw_counters dense_sample.
Proof.
  pose proof (initialize_partial_reads_nothing os_two_counters 1 (0, 1) (0, 5) dense_sample)
    as H.
  destruct H as (Hok & _ & _ & Hraw).
  - vm_compute. tauto.
  - vm_compute. discriminate.
  - vm_compute. tauto.
  - vm_compute. reflexivity.
  - split; [exact Hok | exact Hraw].
Defined.

Lemma initialize_once_witness :
  PerformanceMonitor.initialize os_two_counters 5
    (snd (PerformanceMonitor.initialize os_two_counters 1 PerformanceMonitor.new))
  = (true, snd (PerformanceMonitor.initialize os_two_counters 1 PerformanceMonitor.new)).
Proof. apply initialize_once. vm_compute. reflexivity. Defined.

Lemma monitoring_life_cycle_witness :
  let running :=
    snd (PerformanceMonitor.startMonitoring os_two_counters
           (snd (PerformanceMonitor.initialize os_two_counters 1 PerformanceMonitor.new))) in
  PerformanceMonitor.startMonitoring os_two_counters running = (false, running).
Proof.
  pose proof (monitoring_life_cycle os_two_counters
                (snd (PerformanceMonitor.initialize os_two_counters 1 PerformanceMonitor.new)))
    as H.
  destruct H as (_ & _ & _ & _ & Hagain & _).
  - vm_compute. reflexivity.
  - exact Hagain.
Defined.

(** ** The strided and sequential prefetchers *)

Section StridedStream.

Import StridedPrefetcher.

Lemma feed_snoc (addrs : list Z) (addr : Z) (st : State) :
  feed (addrs ++ [addr]) st = detectStride addr (feed addrs st).
Proof. unfold feed. rewrite fold_left_app. reflexivity. Qed.

Lemma feed_queue_from (addrs : list Z) (st : State) :
  recent_addresses_ (feed addrs st)
  = fold_left (AdaptiveRuntime.history_append 8) addrs (recent_addresses_ st).
Proof.
  revert st. induction addrs as [| a addrs IH]; intros st; [reflexivity |].
  simpl. rewrite IH, detectStride_queue. reflexivity.
Qed.

Lemma feed_config (addrs : list Z) (st : State) :
  prefetch_distance_ (feed addrs st) = prefetch_distance_ st
  /\ cache_line_size_ (feed addrs st) = cache_line_size_ st.
Proof.
  revert st. induction addrs as [| a addrs IH]; intros st; [split; reflexivity |].
  simpl. destruct (IH (detectStride a st)) as [Hd Hc]. rewrite Hd, Hc.
  unfold detectStride. destruct (_ <? _)%nat; split; reflexivity.
Qed.

Lemma to_int64_small (z : Z) : 0 <= z < 2 ^ 63 -> to_int64 z = z.
Proof.
  intros Hz. unfold to_int64, wrap64, U64_MOD.
  change (2 ^ 63) with 9223372036854775808 in *.
  change (2 ^ 64) with 18446744073709551616.
  rewrite Z.mod_small by lia.
  destruct (Z.ltb_spec z 9223372036854775808); [reflexivity | lia].
Qed.

Lemma to_int64_range (z : Z) : - 2 ^ 63 <= to_int64 z < 2 ^ 63.
Proof.
  unfold to_int64, wrap64, U64_MOD.
  change (2 ^ 63) with 9223372036854775808.
  change (2 ^ 64) with 18446744073709551616.
  pose proof (Z.mod_pos_bound z 18446744073709551616 ltac:(lia)).
  destruct (Z.ltb_spec (z mod 18446744073709551616) 9223372036854775808); lia.
Qed.

(** The deltas of a run of consecutive elements of a progression. *)
Lemma window_deltas_progression (base step : Z) (k len : nat) :
  0 <= step < 2 ^ 63 ->
  window_deltas (map (fun i => base + Z.of_nat i * step) (seq k (S len)))
  = repeat step len.
Proof.
  intros Hstep. revert k. induction len as [| len IH]; intros k; [reflexivity |].
  specialize (IH (S k)).
  cbn [seq map] in IH |- *. cbn [window_deltas repeat]. 
  cbn [window_deltas] in IH. rewrite <- IH. f_equal.
  unfold ptrdiff.
  replace (base + Z.of_nat (S k) * step - (base + Z.of_nat k * step)) with step by lia.
  apply to_int64_small. exact Hstep.
Qed.

Lemma all_equal_positive_repeat (step : Z) (n : nat) :
  0 < step -> all_equal_positive (repeat step (S n)) = true.
Proof.
  intros Hstep. simpl. apply andb_true_iff. split.
  - induction n as [| n IH]; [reflexivity |]. simpl. rewrite Z.eqb_refl. exact IH.
  - apply Z.ltb_lt. exact Hstep.
Qed.

Lemma progression_snoc (base step : Z) (n : nat) :
  arith_progression base step (S n)
  = arith_progression base step n ++ [base + Z.of_nat n * step].
Proof. unfold arith_progression. rewrite seq_S, map_app. reflexivity. Qed.

Lemma progression_recent (base step : Z) (n : nat) :
  most_recent 8 (arith_progression base step n)
  = map (fun i => base + Z.of_nat i * step) (seq (n - 8) (Nat.min n 8)).
Proof.
  unfold most_recent, arith_progression.
  rewrite length_map, length_seq. change (Z.to_nat 8) with 8%nat.
  rewrite skipn_map, skipn_seq. f_equal. f_equal; lia.
Qed.

(** X1: a stream of at least eight addresses that starts at a non-null
    address and advances by a constant positive step, fed to a detector
    whose queue is empty (after construction or [reset]), leaves the detected
    stride equal to the step and the last eight addresses in the queue. *)
Theorem detectStride_constant_stream (base step : Z) (n : nat) (st : State) :
  0 < base -> 0 < step -> (8 <= n)%nat ->
  base + Z.of_nat (n - 1) * step < 2 ^ 64 ->
  recent_addresses_ st = [] ->
  detected_stride_ (feed (arith_progression base step n) st) = step
  /\ recent_addresses_ (feed (arith_progression base step n) st)
     = arith_progression (base + Z.of_nat (n - 8) * step) step 8.
Proof.
  intros Hbase Hstep Hn Hfit Hempty.
  assert (Hsmall : 0 <= step < 2 ^ 63).
  { change (2 ^ 64) with (2 * 2 ^ 63) in Hfit.
    assert (7 <= Z.of_nat (n - 1)) by lia.
    assert (0 < 2 ^ 63) by (apply Z.pow_pos_nonneg; lia). nia. }
  split.
  - destruct n as [| n]; [lia |].
    rewrite progression_snoc, feed_snoc.
    set (prev := feed (arith_progression base step n) st).
    assert (Hq : recent_addresses_ prev = most_recent 8 (arith_progression base step n)).
    { unfold prev. rewrite feed_queue_from, Hempty. apply history_fold_most_recent. lia. }
    assert (Hwin : recent_addresses_ prev ++ [base + Z.of_nat n * step]
                   = map (fun i => base + Z.of_nat i * step)
                         (seq (n - 8) (S (Nat.min n 8)))).
    { rewrite Hq, progression_recent, seq_S, map_app. simpl.
      repeat f_equal. lia. }
    unfold detectStride. rewrite Hwin.
    rewrite length_map, length_seq. unfold HISTORY_SIZE.
    destruct (Nat.ltb_spec (S (Nat.min n 8)) 8) as [Hshort | _]; [lia |].
    cbn [detected_stride_].
    rewrite strides_of_nonnull_window.
    + rewrite window_deltas_progression by exact Hsmall.
      rewrite checked_stride_consistent.
      * destruct (Nat.min n 8) eqn:Hmin; [lia | reflexivity].
      * destruct (Nat.min n 8) eqn:Hmin; [lia |].
        apply all_equal_positive_repeat. exact Hstep.
    + apply List.Forall_forall. intros a Ha. apply in_map_iff in Ha.
      destruct Ha as (i & <- & _). nia.
  - rewrite feed_queue_from, Hempty, history_fold_most_recent by lia.
    rewrite progression_recent. unfold arith_progression.
    replace (Nat.min n 8) with 8%nat by lia.
    replace (seq (n - 8) 8) with (map (fun i => (n - 8) + i)%nat (seq 0 8)).
    + rewrite map_map. apply map_ext. intros i. lia.
    + clear. generalize (n - 8)%nat as k. intros k. cbn [seq map].
      repeat (f_equal; try lia).
Qed.

Lemma detectStride_sticky (addr : Z) (st : State) :
  detected_stride_ (detectStride addr st) = detected_stride_ st
  \/ 0 < detected_stride_ (detectStride addr st) < 2 ^ 63.
Proof.
  unfold detectStride. destruct (_ <? HISTORY_SIZE)%nat; [left; reflexivity |].
  cbn [detected_stride_]. unfold checked_stride.
  destruct (strides_from 0 (recent_addresses_ st ++ [addr])) as [| first rest] eqn:Hs;
    [left; reflexivity |].
  destruct (forallb (fun s => s =? first) rest && (0 <? first)) eqn:Hc; [| left; reflexivity].
  right. apply andb_true_iff in Hc. destruct Hc as [_ Hpos]. apply Z.ltb_lt in Hpos.
  split; [exact Hpos |].
  assert (Hin : In first (strides_from 0 (recent_addresses_ st ++ [addr])))
    by (rewrite Hs; left; reflexivity).
  clear - Hin. revert Hin. generalize 0 as prev.
  induction (recent_addresses_ st ++ [addr]) as [| a q IH]; intros prev Hin; [destruct Hin |].
  simpl in Hin. apply in_app_or in Hin. destruct Hin as [Hin | Hin].
  - destruct (prev =? 0); [destruct Hin |].
    destruct Hin as [<- | []]. apply to_int64_range.
  - apply (IH a Hin).
Qed.

(** X13: detection only ever replaces the detected stride by a positive
    value below 2^63; so once a stride has been detected it stays positive
    through every later call, whatever the addresses, and only [reset] takes
    it back to 0. *)
Theorem detected_stride_stays_positive (addrs : list Z) (st : State) :
  (0 < detected_stride_ st -> 0 < detected_stride_ (feed addrs st))
  /\ (detected_stride_ (feed addrs st) = detected_stride_ st
      \/ 0 < detected_stride_ (feed addrs st) < 2 ^ 63)
  /\ detected_stride_ (reset (feed addrs st)) = 0.
Proof.
  split; [| split; [| reflexivity]].
  - induction addrs as [| a addrs IH] using rev_ind; intros Hpos; [exact Hpos |].
    rewrite feed_snoc. destruct (detectStride_sticky a (feed addrs st)) as [-> | Hnew];
      [apply IH; exact Hpos | lia].
  - induction addrs as [| a addrs IH] using rev_ind; [left; reflexivity |].
    rewrite feed_snoc. destruct (detectStride_sticky a (feed addrs st)) as [-> | Hnew];
      [exact IH | right; exact Hnew].
Qed.

(** X14: while fewer than eight addresses are buffered no stride is
    computed: a run of calls that leaves the queue below eight entries keeps
    the detected stride as it was. *)
Theorem detection_needs_eight (addrs : list Z) (st : State) :
  (length (recent_addresses_ st) + length addrs < 8)%nat ->
  detected_stride_ (feed addrs st) = detected_stride_ st
  /\ recent_addresses_ (feed addrs st) = recent_addresses_ st ++ addrs.
Proof.
  revert st. induction addrs as [| a addrs IH]; intros st Hlen.
  - simpl. rewrite app_nil_r. split; reflexivity.
  - simpl in *. 
    assert (Hstep : detectStride a st
                    = {| prefetch_distance_ := prefetch_distance_ st;
                         cache_line_size_ := cache_line_size_ st;
                         detected_stride_ := detected_stride_ st;
                         recent_addresses_ := recent_addresses_ st ++ [a] |}).
    { unfold detectStride, HISTORY_SIZE.
      destruct (Nat.ltb_spec (length (recent_addresses_ st ++ [a])) 8) as [_ | Hge];
        [reflexivity |].
      rewrite length_app in Hge. simpl in Hge. lia. }
    destruct (IH (detectStride a st)) as [Hd Hq].
    + rewrite Hstep. simpl. rewrite length_app. simpl. lia.
    + rewrite Hd, Hq, Hstep. simpl. rewrite <- app_assoc. split; reflexivity.
Qed.

Lemma detectStride_detection_only (addr : Z) (st1 st2 : State) :
  detected_stride_ st1 = detected_stride_ st2 ->
  recent_addresses_ st1 = recent_addresses_ st2 ->
  detected_stride_ (detectStride addr st1) = detected_stride_ (detectStride addr st2)
  /\ recent_addresses_ (detectStride addr st1) = recent_addresses_ (detectStride addr st2).
Proof.
  intros Hd Hq. unfold detectStride. rewrite Hd, Hq.
  destruct (_ <? HISTORY_SIZE)%nat; split; reflexivity.
Qed.

(** X15: [reset] forgets: after it the detector sees the following
    addresses exactly as a newly constructed one would, whatever it had
    buffered or detected, while the configured distance and stride stay. *)
Theorem reset_forgets (addrs : list Z) (st : State) :
  detected_stride_ (feed addrs (reset st)) = detected_stride_ (feed addrs new)
  /\ recent_addresses_ (feed addrs (reset st)) = recent_addresses_ (feed addrs new)
  /\ prefetch_distance_ (feed addrs (reset st)) = prefetch_distance_ st
  /\ cache_line_size_ (feed addrs (reset st)) = cache_line_size_ st.
Proof.
  assert (Hgen : forall st1 st2 : State,
             detected_stride_ st1 = detected_stride_ st2 ->
             recent_addresses_ st1 = recent_addresses_ st2 ->
             detected_stride_ (feed addrs st1) = detected_stride_ (feed addrs st2)
             /\ recent_addresses_ (feed addrs st1) = recent_addresses_ (feed addrs st2)).
  { induction addrs as [| a addrs IH]; intros st1 st2 Hd Hq; [split; assumption |].
    simpl. destruct (detectStride_detection_only a st1 st2 Hd Hq) as [Hd' Hq'].
    apply IH; assumption. }
  destruct (Hgen (reset st) new) as [Hd Hq]; [reflexivity | reflexivity |].
  destruct (feed_config addrs (reset st)) as [Hdist Hline].
  repeat split; assumption.
Qed.

End StridedStream.

Section PrefetchHints.

Lemma hints_ahead_length (base step distance : Z) :
  length (StridedPrefetcher.hints_ahead base step distance) = Z.to_nat distance.
Proof. unfold StridedPrefetcher.hints_ahead. rewrite length_map, length_seq. reflexivity. Qed.

Lemma hints_ahead_nth (base step distance : Z) (k : nat) :
  (k < Z.to_nat distance)%nat ->
  nth k (StridedPrefetcher.hints_ahead base step distance) 0
  = wrap64 (base + wrap64 (Z.of_nat (S k) * step)).
Proof.
  intros Hk. unfold StridedPrefetcher.hints_ahead.
  rewrite (nth_indep _ 0 ((fun i => wrap64 (base + wrap64 (Z.of_nat i * step))) 0%nat))
    by (rewrite length_map, length_seq; exact Hk).
  rewrite (map_nth (fun i => wrap64 (base + wrap64 (Z.of_nat i * step)))).
  rewrite seq_nth by exact Hk. reflexivity.
Qed.

Lemma hints_ahead_exact (base step distance : Z) :
  0 <= base -> 0 <= step -> base + distance * step < U64_MOD ->
  StridedPrefetcher.hints_ahead base step distance
  = arith_progression (base + step) step (Z.to_nat distance).
Proof.
  intros Hb Hs Hfit. unfold StridedPrefetcher.hints_ahead, arith_progression.
  rewrite <- seq_shift, map_map. apply map_ext_in. intros i Hi.
  apply in_seq in Hi. unfold wrap64, U64_MOD in *.
  assert (Hi' : Z.of_nat (S i) <= distance) by lia.
  assert (Hprod : 0 <= Z.of_nat (S i) * step <= distance * step) by nia.
  rewrite (Z.mod_small (Z.of_nat (S i) * step)) by lia.
  rewrite Z.mod_small by lia. lia.
Qed.

(** X16: [StridedPrefetcher::prefetch] first runs the detection on the
    address, then issues exactly [prefetch_distance_] hints, the k-th at
    [addr + k * step] (modulo 2^64), where the step is the detected stride
    when one is detected and the configured stride otherwise; in the latter
    case the hints are those of a sequential prefetcher with the same
    configuration.  (For a distance below [SIZE_MAX]; at [SIZE_MAX] the
    loop condition [i <= prefetch_distance_] never fails.) *)
Theorem strided_prefetch_hints (addr : Z) (st : StridedPrefetcher.State) :
  0 <= StridedPrefetcher.prefetch_distance_ st < U64_MOD - 1 ->
  let st' := StridedPrefetcher.detectStride addr st in
  let hints := snd (StridedPrefetcher.prefetch addr st) in
  let step := if 0 <? StridedPrefetcher.detected_stride_ st'
              then StridedPrefetcher.detected_stride_ st'
              else StridedPrefetcher.cache_line_size_ st in
  fst (StridedPrefetcher.prefetch addr st) = st'
  /\ length hints = Z.to_nat (StridedPrefetcher.prefetch_distance_ st)
  /\ (forall k : nat,
         (k < Z.to_nat (StridedPrefetcher.prefetch_distance_ st))%nat ->
         nth k hints 0 = wrap64 (addr + wrap64 (Z.of_nat (S k) * step)))
  /\ (StridedPrefetcher.detected_stride_ st' <= 0 ->
      hints
      = SequentialPrefetcher.prefetch addr
          {| SequentialPrefetcher.prefetch_distance_ := StridedPrefetcher.prefetch_distance_ st;
             SequentialPrefetcher.cache_line_size_ := StridedPrefetcher.cache_line_size_ st |}).
Proof.
  intros _ st' hints step. subst hints step. unfold StridedPrefetcher.prefetch. fold st'.
  assert (Hd : StridedPrefetcher.prefetch_distance_ st' = StridedPrefetcher.prefetch_distance_ st)
    by (unfold st', StridedPrefetcher.detectStride; destruct (_ <? _)%nat; reflexivity).
  assert (Hc : StridedPrefetcher.cache_line_size_ st' = StridedPrefetcher.cache_line_size_ st)
    by (unfold st', StridedPrefetcher.detectStride; destruct (_ <? _)%nat; reflexivity).
  rewrite Hd, Hc.
  destruct (Z.ltb_spec 0 (StridedPrefetcher.detected_stride_ st')) as [Hpos | Hnone];
    cbn [fst snd].
  - split; [reflexivity |]. split; [apply hints_ahead_length |].
    split; [intros k Hk; apply hints_ahead_nth; exact Hk | intros Hle; lia].
  - split; [reflexivity |]. split; [apply hints_ahead_length |].
    split; [intros k Hk; apply hints_ahead_nth; exact Hk | intros _; reflexivity].
Qed.

(** X17: a sequential prefetcher configured with a distance and a stride
    issues, for an address whose last target still fits in 64 bits, exactly
    the addresses [addr + stride], [addr + 2 * stride], ..., one per unit of
    distance and none for distance 0; [reset] changes nothing of this.
    (For a distance below [SIZE_MAX], where the loop ends.) *)
Theorem sequential_prefetch_hints
    (addr distance stride : Z) (st : SequentialPrefetcher.State) :
  0 <= addr -> 0 <= stride -> 0 <= distance < U64_MOD - 1 ->
  addr + distance * stride < U64_MOD ->
  let configured := SequentialPrefetcher.configure distance stride st in
  SequentialPrefetcher.prefetch addr configured
  = arith_progression (addr + stride) stride (Z.to_nat distance)
  /\ length (SequentialPrefetcher.prefetch addr configured) = Z.to_nat distance
  /\ (distance <= 0 -> SequentialPrefetcher.prefetch addr configured = [])
  /\ SequentialPrefetcher.prefetch addr (SequentialPrefetcher.reset configured)
     = SequentialPrefetcher.prefetch addr configured.
Proof.
  intros Ha Hs _ Hfit configured. subst configured.
  unfold SequentialPrefetcher.prefetch, SequentialPrefetcher.configure,
    SequentialPrefetcher.reset. cbn [SequentialPrefetcher.prefetch_distance_
    SequentialPrefetcher.cache_line_size_].
  split; [apply hints_ahead_exact; assumption |].
  split; [apply hints_ahead_length |].
  split; [| reflexivity].
  intros Hzero. unfold StridedPrefetcher.hints_ahead.
  replace (Z.to_nat distance) with 0%nat by lia. reflexivity.
Qed.

End PrefetchHints.

Lemma detectStride_constant_stream_witness :
  StridedPrefetcher.detected_stride_
    (StridedPrefetcher.feed (arith_progression 4096 24 20) StridedPrefetcher.new) = 24.
Proof.
  apply (proj1 (detectStride_constant_stream 4096 24 20 StridedPrefetcher.new
                  ltac:(lia) ltac:(lia) ltac:(lia) ltac:(vm_compute; reflexivity)
                  ltac:(reflexivity))).
Defined.

Lemma detection_needs_eight_witness :
  StridedPrefetcher.detected_stride_
    (StridedPrefetcher.feed [64; 128; 192; 256; 320; 384; 448] StridedPrefetcher.new) = 0.
Proof.
  apply (proj1 (detection_needs_eight [64; 128; 192; 256; 320; 384; 448]
                  StridedPrefetcher.new ltac:(simpl; lia))).
Defined.

Lemma strided_prefetch_hints_witness :
  nth 1 (snd (StridedPrefetcher.prefetch 576
                (StridedPrefetcher.configure 2 64 trained_strided))) 0
  = 704.
Proof.
  pose proof (strided_prefetch_hints 576 (StridedPrefetcher.configure 2 64 trained_strided))
    as H.
  destruct H as (_ & _ & Hnth & _).
  - vm_compute. split; [discriminate | reflexivity].
  - rewrite (Hnth 1%nat) by (vm_compute; lia). vm_compute. reflexivity.
Defined.

Lemma sequential_prefetch_hints_witness :
  SequentialPrefetcher.prefetch 1000
    (SequentialPrefetcher.configure 3 64 SequentialPrefetcher.new)
  = [1064; 1128; 1192].
Proof.
  apply (proj1 (sequential_prefetch_hints 1000 3 64 SequentialPrefetcher.new
                  ltac:(lia) ltac:(lia) ltac:(vm_compute; split; [discriminate | reflexivity])
                  ltac:(vm_compute; reflexivity))).
Defined.

(** ** The IMA prefetcher: frame, reset and chain order *)

Section IMAChains.

Import IMAPrefetcher.

Lemma push_bounded_append (chain : list Z) (target_addr : Z) :
  push_bounded chain target_addr = AdaptiveRuntime.history_append 4 chain target_addr.
Proof.
  unfold push_bounded, AdaptiveRuntime.history_append, MAX_CHAIN_LENGTH.
  rewrite length_app. simpl length.
  destruct (Nat.ltb_spec (length chain) 4) as [Hlt | Hge];
    destruct (Z.ltb_spec 4 (Z.of_nat (length chain + 1))) as [Hfull | Hroom];
    try lia; try reflexivity.
  destruct chain as [| c chain]; [simpl in Hge; lia | reflexivity].
Qed.

Lemma learn_other (base_addr target_addr other : Z) (st : State) :
  other <> base_addr ->
  pointer_chains_ (learnPointerChain base_addr target_addr st) !! other
  = pointer_chains_ st !! other.
Proof.
  intros Hne. unfold learnPointerChain. simpl. apply lookup_insert_ne. congruence.
Qed.

(** X18: learning a successor for one address leaves the hints of every
    other address, and the configuration, as they were; and after [reset]
    every address falls back to the next-line hint, whatever had been
    learned. *)
Theorem ima_learn_frame_and_reset (A B X : Z) (st : State) :
  (X <> A -> prefetch X (learnPointerChain A B st) = prefetch X st)
  /\ prefetch_distance_ (learnPointerChain A B st) = prefetch_distance_ st
  /\ cache_line_size_ (learnPointerChain A B st) = cache_line_size_ st
  /\ prefetch X (reset (learnPointerChain A B st)) = [wrap64 (X + cache_line_size_ st)]
  /\ prefetch X (reset st) = [wrap64 (X + cache_line_size_ st)].
Proof.
  split.
  { intros Hne. unfold prefetch. rewrite learn_other by exact Hne. reflexivity. }
  split; [reflexivity |]. split; [reflexivity |].
  split; unfold prefetch, reset; simpl; rewrite lookup_empty; reflexivity.
Qed.

Lemma learn_run_lookup (A : Z) (targets : list Z) (st : State) :
  pointer_chains_ (run (map (OpLearn A) targets) st) !! A
  = match targets with
    | [] => pointer_chains_ st !! A
    | _ :: _ =>
        Some (fold_left (AdaptiveRuntime.history_append 4) targets
                        (default [] (pointer_chains_ st !! A)))
    end.
Proof.
  revert st. induction targets as [| t targets IH]; intros st; [reflexivity |].
  simpl map. simpl run. rewrite IH. simpl step.
  rewrite learn_lookup, push_bounded_append.
  destruct targets; reflexivity.
Qed.

(** X19: the successors learned for an address form a queue of four: after
    learning a non-empty sequence of successors for an address that had
    none, its chain is the last four of them in learning order, and
    [prefetch] hints the first [prefetch_distance_] of these. *)
Theorem ima_chain_is_last_four (A : Z) (targets : list Z) (st : State) :
  pointer_chains_ st !! A = None ->
  targets <> [] ->
  let st' := run (map (OpLearn A) targets) st in
  pointer_chains_ st' !! A = Some (skipn (length targets - 4) targets)
  /\ prefetch A st'
     = firstn (Z.to_nat (prefetch_distance_ st)) (skipn (length targets - 4) targets).
Proof.
  intros Hnone Hne st'.
  assert (Hchain : pointer_chains_ st' !! A = Some (skipn (length targets - 4) targets)).
  { unfold st'. rewrite learn_run_lookup, Hnone. simpl default.
    destruct targets as [| t targets]; [contradiction |].
    rewrite history_fold_most_recent by lia. reflexivity. }
  split; [exact Hchain |].
  unfold prefetch. rewrite Hchain. f_equal. f_equal.
  unfold st'. clear. revert st.
  induction targets as [| t targets IH]; intros st; [reflexivity |].
  simpl. rewrite IH. reflexivity.
Qed.

(** X20: in every state reached from the constructor [prefetch] issues at
    most four hints; with a distance of at least 1 it issues at least one;
    and it issues none exactly when the address has a learned chain and the
    distance is 0: the next-line fallback is only taken for addresses
    without a chain. *)
Theorem ima_prefetch_hint_count (ops : list Op) (X : Z) :
  let st := run ops new in
  (length (prefetch X st) <= 4)%nat
  /\ (1 <= prefetch_distance_ st -> (1 <= length (prefetch X st))%nat)
  /\ (prefetch X st = [] <->
      is_Some (pointer_chains_ st !! X) /\ prefetch_distance_ st <= 0).
Proof.
  intros st.
  assert (Hb : chains_bounded st) by (apply run_bounded, new_bounded).
  unfold prefetch.
  destruct (pointer_chains_ st !! X) as [chain |] eqn:Hlook.
  - pose proof (Hb X chain Hlook) as Hlen.
    split; [rewrite length_firstn; lia |]. split.
    + intros Hd. rewrite length_firstn. lia.
    + split.
      * intros Hnil. split; [eexists; reflexivity |].
        apply (f_equal (@length Z)) in Hnil. rewrite length_firstn in Hnil.
        simpl in Hnil. lia.
      * intros [_ Hd]. replace (Z.to_nat (prefetch_distance_ st)) with 0%nat by lia.
        reflexivity.
  - split; [simpl; lia |]. split; [intros _; simpl; lia |].
    split; [discriminate | intros [[c Hc] _]; discriminate].
Qed.

End IMAChains.

Lemma ima_chain_is_last_four_witness :
  IMAPrefetcher.prefetch 100
    (IMAPrefetcher.run (map (IMAPrefetcher.OpLearn 100) [1; 2; 3; 4; 5; 6])
       (IMAPrefetcher.configure 2 64 IMAPrefetcher.new))
  = [3; 4].
Proof.
  apply (proj2 (ima_chain_is_last_four 100 [1; 2; 3; 4; 5; 6]
                  (IMAPrefetcher.configure 2 64 IMAPrefetcher.new)
                  ltac:(reflexivity) ltac:(discriminate))).
Defined.

(** ** The adaptive runtime: accessors, composition, reachability *)

Section RuntimeBehaviour.

Import AdaptiveRuntime.

Context {Predictive : Type}.

Local Abbreviation Runtime := (AdaptiveRuntime.Runtime Predictive).
Local Abbreviation Prefetcher := (AdaptiveRuntime.Prefetcher Predictive).

Lemma map_nth_seq_skipn {A : Type} (d : A) (l : list A) (k : nat) :
  map (fun i => nth i l d) (seq k (length l - k)) = skipn k l.
Proof.
  revert k. induction l as [| a l IH]; intros k.
  - simpl. destruct k; reflexivity.
  - destruct k as [| k].
    + simpl length. rewrite Nat.sub_0_r. cbn [seq map nth skipn]. f_equal.
      rewrite <- seq_shift, map_map. cbn [nth].
      specialize (IH 0%nat). rewrite Nat.sub_0_r in IH. exact IH.
    + simpl length. simpl Nat.sub. cbn [skipn].
      rewrite <- seq_shift, map_map. cbn [nth]. apply IH.
Qed.

(** X21: [getRecentMetrics(count)] returns the most recent [count] entries
    of the history in their order, and the whole history when it holds no
    more than [count]; it never returns more than [count] entries. *)
Theorem getRecentMetrics_most_recent (count : Z) (rt : Runtime) :
  0 <= count ->
  getRecentMetrics count rt
  = skipn (length (metrics_history_ rt) - Z.to_nat count) (metrics_history_ rt)
  /\ length (getRecentMetrics count rt)
     = Nat.min (Z.to_nat count) (length (metrics_history_ rt))
  /\ (Z.of_nat (length (metrics_history_ rt)) <= count ->
      getRecentMetrics count rt = metrics_history_ rt).
Proof.
  intros Hcount.
  assert (Heq : getRecentMetrics count rt
                = skipn (length (metrics_history_ rt) - Z.to_nat count) (metrics_history_ rt)).
  { unfold getRecentMetrics.
    set (h := metrics_history_ rt).
    assert (Hstart : Z.to_nat (if count <? Z.of_nat (length h)
                               then Z.of_nat (length h) - count else 0)
                     = (length h - Z.to_nat count)%nat).
    { destruct (Z.ltb_spec count (Z.of_nat (length h))); lia. }
    rewrite Hstart. apply map_nth_seq_skipn. }
  split; [exact Heq |]. split.
  - rewrite Heq, length_skipn. lia.
  - intros Hall. rewrite Heq.
    replace (length (metrics_history_ rt) - Z.to_nat count)%nat with 0%nat by lia.
    reflexivity.
Qed.

(** X22: the reported effectiveness is 0.0 while the history holds fewer
    than two entries, whatever the entry says, and from two entries on it is
    the average prefetch-useful rate that the adaptation step computes over
    the same history. *)
Theorem effectiveness_is_window_average (rt : Runtime) :
  ((length (metrics_history_ rt) < 2)%nat -> getStrategyEffectiveness rt = 0%float)
  /\ ((2 <= length (metrics_history_ rt))%nat ->
      getStrategyEffectiveness rt
      = prefetch_useful_rate (computeAverageMetrics (metrics_history_ rt))).
Proof.
  unfold getStrategyEffectiveness.
  destruct (Nat.ltb_spec (length (metrics_history_ rt)) 2) as [Hlt | Hge]; split;
    intros H; try lia; reflexivity.
Qed.

(** X23: running the adaptation half twice on the same history is running
    it once: the second run changes nothing and logs nothing. *)
Theorem adapt_twice (rt : Runtime) :
  adapt (fst (adapt rt)) = (fst (adapt rt), []).
Proof.
  destruct (Nat.lt_ge_cases (length (metrics_history_ rt)) 10) as [Hcold | Hwarm].
  - rewrite (adapt_cold rt Hcold). simpl. apply adapt_cold. exact Hcold.
  - destruct (phase_eqb (detectExecutionPhase (computeAverageMetrics (metrics_history_ rt)))
                        (current_phase_ rt)) eqn:Heq.
    + apply phase_eqb_eq in Heq. rewrite (adapt_same_phase rt Heq). simpl.
      apply adapt_same_phase. exact Heq.
    + apply phase_eqb_neq in Heq. rewrite (adapt_new_phase rt Hwarm Heq).
      apply adapt_same_phase. reflexivity.
Qed.

Lemma adapt_warm_phase (rt : Runtime) :
  (10 <= length (metrics_history_ rt))%nat ->
  current_phase_ (fst (adapt rt))
  = detectExecutionPhase (computeAverageMetrics (metrics_history_ rt)).
Proof.
  intros Hwarm.
  destruct (phase_eqb (detectExecutionPhase (computeAverageMetrics (metrics_history_ rt)))
                      (current_phase_ rt)) eqn:Heq.
  - apply phase_eqb_eq in Heq. rewrite (adapt_same_phase rt Heq). symmetry. exact Heq.
  - apply phase_eqb_neq in Heq. rewrite (adapt_new_phase rt Hwarm Heq). reflexivity.
Qed.

Lemma adapt_keeps_known (rt : Runtime) :
  current_phase_ rt <> UNKNOWN -> current_phase_ (fst (adapt rt)) <> UNKNOWN.
Proof.
  intros Hknown.
  destruct (Nat.lt_ge_cases (length (metrics_history_ rt)) 10) as [Hcold | Hwarm].
  - rewrite (adapt_cold rt Hcold). exact Hknown.
  - rewrite (adapt_warm_phase rt Hwarm). apply detectExecutionPhase_known.
Qed.

(** X24: the adaptation never selects [UNKNOWN].  A runtime that has left
    [UNKNOWN] never reports it again, whatever is sampled; and a runtime
    started from the constructor with a capacity of at least ten has left
    [UNKNOWN] for good once ten entries have been recorded. *)
Theorem unknown_is_left_for_good (ms : list PhaseMetrics) :
  (forall rt : Runtime,
      current_phase_ rt <> UNKNOWN -> current_phase_ (ticks ms rt) <> UNKNOWN)
  /\ (forall (prefetcher : option Prefetcher) (config : Config),
         10 <= history_size config -> (10 <= length ms)%nat ->
         getCurrentPhase (ticks ms (AdaptiveRuntime.new prefetcher config)) <> UNKNOWN).
Proof.
  split.
  - induction ms as [| m ms IH] using rev_ind; intros rt Hknown; [exact Hknown |].
    rewrite ticks_snoc. unfold tick. apply adapt_keeps_known.
    unfold store_in_history, with_history. simpl. apply IH. exact Hknown.
  - intros prefetcher config Hcap Hlen. unfold getCurrentPhase.
    destruct ms as [| m0 ms0] using rev_ind; [simpl in Hlen; lia |]. clear IHms0.
    rewrite ticks_snoc. unfold tick.
    set (rt0 := ticks ms0 (AdaptiveRuntime.new prefetcher config)).
    destruct (ticks_history ms0 (AdaptiveRuntime.new prefetcher config)) as [Hh Hc].
    fold rt0 in Hh, Hc. simpl in Hh, Hc.
    rewrite history_fold_most_recent in Hh by lia.
    rewrite adapt_warm_phase; [apply detectExecutionPhase_known |].
    unfold store_in_history, with_history. simpl. rewrite Hc, Hh.
    rewrite history_append_most_recent by lia.
    rewrite most_recent_length by lia. rewrite length_app in *. simpl in *. lia.
Qed.

(** X25: a phase hint sets distance and degree only: it never changes the
    reported phase, the adaptation counter, the history or the prefetcher's
    predictive state; hinting the same phase twice is hinting it once; and
    of two hints in a row the second decides, unless it is [UNKNOWN]. *)
Theorem hintPhase_overrides (p q : ExecutionPhase) (rt : Runtime) :
  let hinted := fst (hintPhase p rt) in
  current_phase_ hinted = current_phase_ rt
  /\ total_adaptations_ hinted = total_adaptations_ rt
  /\ metrics_history_ hinted = metrics_history_ rt
  /\ option_map predictive (prefetcher_ hinted) = option_map predictive (prefetcher_ rt)
  /\ fst (hintPhase p hinted) = hinted
  /\ (q <> UNKNOWN -> fst (hintPhase q hinted) = fst (hintPhase q rt)).
Proof.
  intros hinted. subst hinted. unfold hintPhase.
  rewrite !updatePrefetchingStrategy_state.
  destruct rt as [[pf |] cfg cur ad h n]; unfold with_prefetcher, apply_table; simpl.
  - destruct p; simpl; repeat split; try reflexivity;
      intros Hq; destruct q; simpl; try reflexivity; congruence.
  - repeat split; reflexivity.
Qed.

(** While fewer than ten entries are held, a tick only stores its entry. *)
Lemma ticks_cold
    (prefetcher : option Prefetcher) (config : Config) (ms : list PhaseMetrics) :
  0 <= history_size config ->
  (Nat.min (length ms) (Z.to_nat (history_size config)) < 10)%nat ->
  ticks ms (AdaptiveRuntime.new prefetcher config)
  = with_history (most_recent (history_size config) ms)
      (AdaptiveRuntime.new prefetcher config).
Proof.
  intros Hcap. induction ms as [| m ms IH] using rev_ind; intros Hcold; [reflexivity |].
  rewrite length_app in Hcold. simpl in Hcold.
  rewrite ticks_snoc, IH by lia. unfold tick.
  assert (Hstore : store_in_history m
                     (with_history (most_recent (history_size config) ms)
                        (AdaptiveRuntime.new prefetcher config))
                   = with_history (most_recent (history_size config) (ms ++ [m]))
                       (AdaptiveRuntime.new prefetcher config)).
  { unfold store_in_history, with_history. simpl.
    rewrite history_append_most_recent by lia. reflexivity. }
  rewrite Hstore. rewrite adapt_cold; [reflexivity |].
  unfold with_history. simpl. rewrite most_recent_length by lia.
  rewrite length_app. simpl. lia.
Qed.

(** X26: a runtime configured with a history capacity below ten never
    adapts: whatever is sampled, and however long, it stays in [UNKNOWN] with
    zero adaptations and the prefetcher as supplied, because the history can
    never hold the ten entries the adaptation step asks for. *)
Theorem small_capacity_never_adapts
    (prefetcher : option Prefetcher) (config : Config) (ms : list PhaseMetrics) :
  0 <= history_size config < 10 ->
  let rt := ticks ms (AdaptiveRuntime.new prefetcher config) in
  getCurrentPhase rt = UNKNOWN
  /\ getTotalAdaptations rt = 0
  /\ prefetcher_ rt = prefetcher
  /\ (length (metrics_history_ rt) < 10)%nat.
Proof.
  intros Hcap rt. subst rt. rewrite ticks_cold by lia.
  unfold with_history, getCurrentPhase, getTotalAdaptations. simpl.
  repeat split; try reflexivity.
  rewrite most_recent_length by lia. lia.
Qed.

Lemma adapt_counts (rt : Runtime) :
  total_adaptations_ (fst (adapt rt)) = total_adaptations_ rt
  \/ ((10 <= length (metrics_history_ rt))%nat
      /\ total_adaptations_ (fst (adapt rt)) = wrap64 (total_adaptations_ rt + 1)).
Proof.
  destruct (Nat.lt_ge_cases (length (metrics_history_ rt)) 10) as [Hcold | Hwarm].
  - left. rewrite (adapt_cold rt Hcold). reflexivity.
  - destruct (phase_eqb (detectExecutionPhase (computeAverageMetrics (metrics_history_ rt)))
                        (current_phase_ rt)) eqn:Heq.
    + apply phase_eqb_eq in Heq. left. rewrite (adapt_same_phase rt Heq). reflexivity.
    + apply phase_eqb_neq in Heq. right. split; [exact Hwarm |].
      rewrite (adapt_new_phase rt Hwarm Heq). reflexivity.
Qed.

(** X27: counted from the constructor, the first nine recorded entries are
    only stored (no adaptation, phase [UNKNOWN], prefetcher untouched), and
    after n entries the adaptation counter is at most n - 9: at most one
    adaptation per recorded entry from the tenth on. *)
Theorem adaptations_bounded_by_entries
    (prefetcher : option Prefetcher) (config : Config) (ms : list PhaseMetrics) :
  0 <= history_size config ->
  Z.of_nat (length ms) < U64_MOD ->
  let rt := ticks ms (AdaptiveRuntime.new prefetcher config) in
  0 <= getTotalAdaptations rt <= Z.max 0 (Z.of_nat (length ms) - 9)
  /\ ((length ms < 10)%nat ->
      getCurrentPhase rt = UNKNOWN /\ prefetcher_ rt = prefetcher).
Proof.
  intros Hcap Hlen rt. subst rt. split.
  - unfold getTotalAdaptations.
    induction ms as [| m ms IH] using rev_ind; [simpl; lia |].
    rewrite length_app in *. simpl length in *.
    specialize (IH ltac:(lia)).
    rewrite ticks_snoc. unfold tick.
    set (rt1 := ticks ms (AdaptiveRuntime.new prefetcher config)) in *.
    destruct (adapt_counts (store_in_history m rt1)) as [-> | [Hwarm ->]].
    + unfold store_in_history, with_history. simpl. lia.
    + assert (Hlen1 : (length (metrics_history_ (store_in_history m rt1))
                       <= length ms + 1)%nat).
      { destruct (ticks_history ms (AdaptiveRuntime.new prefetcher config)) as [Hh Hc].
        fold rt1 in Hh, Hc. simpl in Hh, Hc.
        rewrite history_fold_most_recent in Hh by lia.
        unfold store_in_history, with_history. simpl. rewrite Hc, Hh.
        rewrite history_append_most_recent by lia.
        rewrite most_recent_length by lia. rewrite length_app. simpl. lia. }
      unfold store_in_history, with_history in *. simpl in *.
      unfold wrap64. rewrite Z.mod_small by (unfold U64_MOD in *; lia). lia.
  - intros Hfew. rewrite ticks_cold by lia.
    unfold with_history, getCurrentPhase. simpl. split; reflexivity.
Qed.

End RuntimeBehaviour.

Lemma getRecentMetrics_most_recent_witness :
  AdaptiveRuntime.getRecentMetrics 2
    (AdaptiveRuntime.ticks [metrics_at 1; metrics_at 2; metrics_at 3; metrics_at 4]
       (AdaptiveRuntime.new (Some plain_prefetcher) config_keep_three))
  = [metrics_at 3; metrics_at 4].
Proof.
  apply (proj1 (getRecentMetrics_most_recent 2
                  (AdaptiveRuntime.ticks
                     [metrics_at 1; metrics_at 2; metrics_at 3; metrics_at 4]
                     (AdaptiveRuntime.new (Some plain_prefetcher) config_keep_three))
                  ltac:(lia))).
Defined.

Lemma small_capacity_never_adapts_witness :
  AdaptiveRuntime.getCurrentPhase
    (AdaptiveRuntime.ticks (repeat dense_metrics 12)
       (AdaptiveRuntime.new (Some plain_prefetcher) config_keep_three))
  = AdaptiveRuntime.UNKNOWN.
Proof.
  apply (small_capacity_never_adapts (Some plain_prefetcher) config_keep_three
           (repeat dense_metrics 12)).
  simpl. lia.
Defined.

Lemma adaptations_bounded_by_entries_witness :
  0 <= AdaptiveRuntime.getTotalAdaptations
         (AdaptiveRuntime.ticks (repeat dense_metrics 12)
            (AdaptiveRuntime.new (Some plain_prefetcher) AdaptiveRuntime.default_config))
    <= 3.
Proof.
  apply (adaptations_bounded_by_entries (Some plain_prefetcher)
           AdaptiveRuntime.default_config (repeat dense_metrics 12)).
  - simpl. lia.
  - vm_compute. reflexivity.
Defined.

(** ** From counters to phases *)

Section CountersToPhases.

Import AdaptiveRuntime.

Context {Predictive : Type}.

Local Abbreviation Runtime := (AdaptiveRuntime.Runtime Predictive).
Local Abbreviation Prefetcher := (AdaptiveRuntime.Prefetcher Predictive).

(** The three outcomes of [hits / (hits + misses + 1)] on [uint64_t]. *)
Lemma hit_rate_cases (hits misses : Z) :
  0 <= hits < U64_MOD -> 0 <= misses < U64_MOD ->
  (hits + misses + 1 < U64_MOD -> hit_rate hits misses = Some 0%float)
  /\ (hits + misses + 1 = U64_MOD -> hit_rate hits misses = None)
  /\ (U64_MOD < hits + misses + 1 ->
      exists q : Z, 1 <= q < U64_MOD /\ hit_rate hits misses = Some (u64_to_double q)).
Proof.
  intros Hh Hm. unfold hit_rate, udiv64, wrap64.
  rewrite Z.add_mod_idemp_l by (unfold U64_MOD; lia).
  assert (HM : 0 < U64_MOD) by (unfold U64_MOD; lia).
  split; [| split]; intros Hsum.
  - rewrite Z.mod_small by lia.
    destruct (Z.eqb_spec (hits + misses + 1) 0) as [Hz | _]; [lia |].
    rewrite Z.div_small by lia. reflexivity.
  - rewrite Hsum, Z_mod_same_full. reflexivity.
  - replace (hits + misses + 1) with (hits + misses + 1 - U64_MOD + 1 * U64_MOD) by lia.
    rewrite Z_mod_plus_full, Z.mod_small by lia.
    destruct (Z.eqb_spec (hits + misses + 1 - U64_MOD) 0) as [Hz | _]; [lia |].
    exists (hits / (hits + misses + 1 - U64_MOD)). split; [| reflexivity].
    split.
    + apply Z.div_le_lower_bound; lia.
    + apply Z.div_lt_upper_bound; nia.
Qed.

(** X28: on [uint64_t] counters [extractMetrics] divides by zero exactly
    when [hits + misses] is 2^64 - 1 at some cache level; for every other
    sample it returns an entry that carries the timestamp it was given. *)
Theorem extractMetrics_fails_iff_wrap (sample : PerformanceCounters) (timestamp : Z) :
  hit_counters_in_range sample ->
  (extractMetrics sample timestamp = None <->
   l1_cache_hits sample + l1_cache_misses sample = U64_MOD - 1
   \/ l2_cache_hits sample + l2_cache_misses sample = U64_MOD - 1
   \/ l3_cache_hits sample + l3_cache_misses sample = U64_MOD - 1)
  /\ (forall metrics, extractMetrics sample timestamp = Some metrics ->
                      timestamp_ms metrics = timestamp).
Proof.
  intros (H1h & H1m & H2h & H2m & H3h & H3m).
  destruct (hit_rate_cases _ _ H1h H1m) as (A1 & B1 & C1).
  destruct (hit_rate_cases _ _ H2h H2m) as (A2 & B2 & C2).
  destruct (hit_rate_cases _ _ H3h H3m) as (A3 & B3 & C3).
  unfold extractMetrics. split.
  - split.
    + intros Hnone.
      destruct (Z.eq_dec (l1_cache_hits sample + l1_cache_misses sample) (U64_MOD - 1))
        as [? | N1]; [auto |].
      destruct (Z.eq_dec (l2_cache_hits sample + l2_cache_misses sample) (U64_MOD - 1))
        as [? | N2]; [auto |].
      destruct (Z.eq_dec (l3_cache_hits sample + l3_cache_misses sample) (U64_MOD - 1))
        as [? | N3]; [auto |].
      exfalso.
      assert (E1 : exists r, hit_rate (l1_cache_hits sample) (l1_cache_misses sample) = Some r).
      { destruct (Z.lt_ge_cases (l1_cache_hits sample + l1_cache_misses sample + 1) U64_MOD).
        - eexists. apply A1. lia.
        - destruct C1 as (q & _ & Hq); [lia |]. eexists. exact Hq. }
      assert (E2 : exists r, hit_rate (l2_cache_hits sample) (l2_cache_misses sample) = Some r).
      { destruct (Z.lt_ge_cases (l2_cache_hits sample + l2_cache_misses sample + 1) U64_MOD).
        - eexists. apply A2. lia.
        - destruct C2 as (q & _ & Hq); [lia |]. eexists. exact Hq. }
      assert (E3 : exists r, hit_rate (l3_cache_hits sample) (l3_cache_misses sample) = Some r).
      { destruct (Z.lt_ge_cases (l3_cache_hits sample + l3_cache_misses sample + 1) U64_MOD).
        - eexists. apply A3. lia.
        - destruct C3 as (q & _ & Hq); [lia |]. eexists. exact Hq. }
      destruct E1 as (r1 & E1), E2 as (r2 & E2), E3 as (r3 & E3).
      rewrite E1, E2, E3 in Hnone. discriminate.
    + intros [Hw | [Hw | Hw]].
      * rewrite B1 by lia. reflexivity.
      * rewrite B2 by lia. destruct (hit_rate (l1_cache_hits sample) _); reflexivity.
      * rewrite B3 by lia.
        destruct (hit_rate (l1_cache_hits sample) _); [| reflexivity].
        destruct (hit_rate (l2_cache_hits sample) _); reflexivity.
  - intros metrics.
    destruct (hit_rate (l1_cache_hits sample) _); [| discriminate].
    destruct (hit_rate (l2_cache_hits sample) _); [| discriminate].
    destruct (hit_rate (l3_cache_hits sample) _); [| discriminate].
    intros Hsome. injection Hsome as <-. reflexivity.
Qed.

Lemma extractMetrics_l1_zero (sample : PerformanceCounters) (timestamp : Z)
    (metrics : PhaseMetrics) :
  hit_counters_fit sample ->
  extractMetrics sample timestamp = Some metrics ->
  l1_hit_rate metrics = 0%float.
Proof.
  intros (H1h & H1m & H1 & _) Hsome. unfold extractMetrics in Hsome.
  destruct (hit_rate_cases (l1_cache_hits sample) (l1_cache_misses sample)) as (A1 & _);
    [unfold U64_MOD in *; lia | unfold U64_MOD in *; lia |].
  rewrite (A1 H1) in Hsome.
  destruct (hit_rate (l2_cache_hits sample) _); [| discriminate].
  destruct (hit_rate (l3_cache_hits sample) _); [| discriminate].
  injection Hsome as <-. reflexivity.
Qed.

Lemma sum_field_zero (f : PhaseMetrics -> float) (history : list PhaseMetrics) :
  List.Forall (fun metric => f metric = 0%float) history ->
  sum_field f history = 0%float.
Proof.
  unfold sum_field. induction 1 as [| metric history Hm _ IH]; [reflexivity |].
  simpl. rewrite Hm. exact IH.
Qed.

Lemma zero_over_count (n : Z) :
  0 < n < U64_MOD -> (0 / u64_to_double n)%float = 0%float.
Proof.
  intros Hn.
  destruct (u64_to_double_positive_finite n) as (m & e & Hc & _);
    [unfold U64_MOD in Hn; lia |].
  rewrite <- (FloatAxioms.SF2Prim_Prim2SF (0 / u64_to_double n)).
  rewrite FloatAxioms.div_spec, Hc. reflexivity.
Qed.

(** A history whose L1 hit rates are all 0.0 is never classified
    [DENSE_SEQUENTIAL]. *)
Lemma zero_hit_rates_not_dense (history : list PhaseMetrics) :
  history <> [] -> Z.of_nat (length history) < U64_MOD ->
  List.Forall (fun metric => l1_hit_rate metric = 0%float) history ->
  detectExecutionPhase (computeAverageMetrics history) <> DENSE_SEQUENTIAL.
Proof.
  intros Hne Hlen Hzero.
  assert (Havg : l1_hit_rate (computeAverageMetrics history) = 0%float).
  { unfold computeAverageMetrics. simpl.
    rewrite (sum_field_zero l1_hit_rate history Hzero).
    apply zero_over_count. destruct history; [congruence | cbn [length] in *; lia]. }
  unfold detectExecutionPhase. rewrite Havg.
  replace (0.85 <? 0)%float with false by reflexivity.
  replace (0.50 <? 0)%float with false by reflexivity.
  simpl. destruct (PrimFloat.ltb _ 0.4); discriminate.
Qed.

Lemma Forall_most_recent {A : Type} (P : A -> Prop) (capacity : Z) (all : list A) :
  List.Forall P all -> List.Forall P (most_recent capacity all).
Proof.
  intros Hall. unfold most_recent.
  rewrite <- (firstn_skipn (length all - Z.to_nat capacity) all) in Hall.
  apply List.Forall_app in Hall. exact (proj2 Hall).
Qed.

(** X29: a runtime started from the constructor and fed entries that
    [extractMetrics] computed from counters whose [hits + misses + 1] does
    not wrap never selects [DENSE_SEQUENTIAL]: the stored L1 hit rates are
    all 0.0, so their average never exceeds 0.85. *)
Theorem dense_never_selected_from_counters
    (prefetcher : option Prefetcher) (config : Config)
    (samples : list (PerformanceCounters * Z)) (ms : list PhaseMetrics) :
  0 <= history_size config < U64_MOD ->
  List.Forall2
    (fun st metrics =>
       hit_counters_fit (fst st) /\ extractMetrics (fst st) (snd st) = Some metrics)
    samples ms ->
  getCurrentPhase (ticks ms (AdaptiveRuntime.new prefetcher config)) <> DENSE_SEQUENTIAL.
Proof.
  intros Hcap Hextracted.
  assert (Hzero : List.Forall (fun metric => l1_hit_rate metric = 0%float) ms).
  { induction Hextracted as [| st metrics samples ms [Hfit Hsome] _ IH]; constructor.
    - exact (extractMetrics_l1_zero _ _ _ Hfit Hsome).
    - exact IH. }
  clear Hextracted samples. unfold getCurrentPhase.
  induction ms as [| m ms IH] using rev_ind; [discriminate |].
  pose proof Hzero as Hall.
  apply List.Forall_app in Hzero. destruct Hzero as [Hzero _].
  specialize (IH Hzero).
  rewrite ticks_snoc. unfold tick.
  set (rt1 := ticks ms (AdaptiveRuntime.new prefetcher config)) in *.
  destruct (Nat.lt_ge_cases (length (metrics_history_ (store_in_history m rt1))) 10)
    as [Hcold | Hwarm].
  - rewrite (adapt_cold _ Hcold). exact IH.
  - assert (Heq : current_phase_ (fst (adapt (store_in_history m rt1)))
                  = detectExecutionPhase
                      (computeAverageMetrics (metrics_history_ (store_in_history m rt1)))).
    { destruct (phase_eqb
                  (detectExecutionPhase
                     (computeAverageMetrics (metrics_history_ (store_in_history m rt1))))
                  (current_phase_ (store_in_history m rt1))) eqn:Hp.
      - apply phase_eqb_eq in Hp. rewrite (adapt_same_phase _ Hp). symmetry. exact Hp.
      - apply phase_eqb_neq in Hp. rewrite (adapt_new_phase _ Hwarm Hp). reflexivity. }
    rewrite Heq.
    assert (Hh : metrics_history_ (store_in_history m rt1)
                 = most_recent (history_size config) (ms ++ [m])).
    { destruct (ticks_history ms (AdaptiveRuntime.new prefetcher config)) as [Hh Hc].
      fold rt1 in Hh, Hc. simpl in Hh, Hc.
      rewrite history_fold_most_recent in Hh by lia.
      unfold store_in_history, with_history. simpl. rewrite Hc, Hh.
      apply history_append_most_recent. lia. }
    rewrite Hh in *.
    apply zero_hit_rates_not_dense.
    + intros Hnil. rewrite Hnil in Hwarm. simpl in Hwarm. lia.
    + rewrite most_recent_length by lia. lia.
    + apply Forall_most_recent. exact Hall.
Qed.

End CountersToPhases.

Lemma extractMetrics_fails_iff_wrap_witness :
  AdaptiveRuntime.extractMetrics counters_l1_saturated 5 = None.
Proof.
  assert (Hrange : hit_counters_in_range counters_l1_saturated)
    by (repeat split; vm_compute; congruence).
  apply (proj2 (proj1 (extractMetrics_fails_iff_wrap counters_l1_saturated 5 Hrange))).
  left. reflexivity.
Defined.

Lemma dense_never_selected_from_counters_witness :
  AdaptiveRuntime.getCurrentPhase
    (AdaptiveRuntime.ticks (repeat metrics_of_all_hits 12)
       (AdaptiveRuntime.new (Some plain_prefetcher) AdaptiveRuntime.default_config))
  <> AdaptiveRuntime.DENSE_SEQUENTIAL.
Proof.
  apply (dense_never_selected_from_counters (Some plain_prefetcher)
           AdaptiveRuntime.default_config (repeat (counters_all_hits, 5) 12)).
  - unfold U64_MOD. simpl. lia.
  - simpl repeat.
    repeat (apply List.Forall2_cons;
            [split; [unfold hit_counters_fit, U64_MOD; simpl; lia | vm_compute; reflexivity] |]).
    apply List.Forall2_nil.
Defined.
